(** * Runtime value resolution of the expr virtual machine (vm/runtime.go)

    A shallow embedding of the operators of [vm/runtime.go]: [fetch],
    [normalize], [slice], [FetchFn], [FetchFnNil], [negate], [toInt],
    [toInt64] and [isNil], over a model of Go dynamic values and of the part
    of package [reflect] these operators call.

    Layout:
    - Go types and values, and the functions of package [reflect] that
      runtime.go calls, with the panics they raise;
    - the operators of runtime.go, in a section over the width of [int], the
      platform's out-of-range float conversion and the host's implementation
      of the [Fetcher] capability;
    - the operators [in], [length] and [makeRange], in [Operators];
    - the properties, each under the number of the claim it settles. *)

From Stdlib Require Import ZArith List String Ascii Bool Lia SpecFloat.
From Stdlib Require Import DecimalString.
Import ListNotations.

Set Warnings "-register-all,-notation-for-abbreviation".

Local Open Scope Z_scope.

(** ** Two's-complement integers

    A Go integer of [w] bits is a [Z] in the range of its type; arithmetic
    wraps around, which the two functions below write out. *)

Definition wrap_unsigned (w z : Z) : Z := z mod 2 ^ w.

Definition wrap_signed (w z : Z) : Z :=
  (z + 2 ^ (w - 1)) mod 2 ^ w - 2 ^ (w - 1).

(** [int], [uint] and [uintptr] are 32 or 64 bits wide. *)
Inductive WordSize := W32 | W64.

Definition word_bits (ws : WordSize) : Z :=
  match ws with W32 => 32 | W64 => 64 end.

(** ** Package reflect: kinds, types and values *)

Module reflect.

(** [reflect.Kind], in the order of the Go declaration. *)
Inductive Kind :=
| Invalid
| Bool
| Int | Int8 | Int16 | Int32 | Int64
| Uint | Uint8 | Uint16 | Uint32 | Uint64 | Uintptr
| Float32 | Float64
| Complex64 | Complex128
| Array | Chan | Func | Interface | Map | Pointer | Slice | String | Struct
| UnsafePointer.

(** [reflect.Ptr] is the old name of [reflect.Pointer]. *)
Notation Ptr := Pointer (only parsing).

Definition Kind_eqb (a b : Kind) : bool :=
  match a, b with
  | Invalid, Invalid | Bool, Bool
  | Int, Int | Int8, Int8 | Int16, Int16 | Int32, Int32 | Int64, Int64
  | Uint, Uint | Uint8, Uint8 | Uint16, Uint16 | Uint32, Uint32
  | Uint64, Uint64 | Uintptr, Uintptr
  | Float32, Float32 | Float64, Float64
  | Complex64, Complex64 | Complex128, Complex128
  | Array, Array | Chan, Chan | Func, Func | Interface, Interface
  | Map, Map | Pointer, Pointer | Slice, Slice | String, String
  | Struct, Struct | UnsafePointer, UnsafePointer => true
  | _, _ => false
  end.

End reflect.

(** Go types.  [Basic k] is the predeclared type of kind [k] ([bool], [int],
    [uint8], [float64], [string], ...).  A defined type [Named] carries its
    name, its exported methods with value receiver, those with pointer
    receiver, and its underlying type; type identity of defined types is by
    name.  A struct field is its name, whether it is exported, and its type;
    embedded fields are not modelled. *)
Inductive rtype :=
| Basic (k : reflect.Kind)
| ArrayOf (len : nat) (elem : rtype)
| ChanOf (elem : rtype)
| FuncOf (ins outs : list rtype)
| InterfaceOf (methods : list (string * rtype))
| MapOf (key elem : rtype)
| PointerTo (elem : rtype)
| SliceOf (elem : rtype)
| StructOf (fields : list (string * bool * rtype))
| Named (name : string) (methods ptr_methods : list (string * rtype))
        (underlying : rtype).

(** The values of Go, by representation.  Integers of every width are [VInt],
    floats of both widths a [spec_float]; a string is its bytes; a slice, map,
    pointer, func, chan or interface is [None] when nil; [VBound] is a method
    value, a func bound to its receiver.  A pointer carries
    its address (pointer equality) and the value it points to; nothing here
    writes through a pointer.  The capacity of a slice is taken to be its
    length.  An interface-typed slot holds a dynamic type and a value. *)
Inductive data :=
| VBool (b : bool)
| VInt (z : Z)
| VFloat (f : spec_float)
| VComplex (re im : spec_float)
| VString (s : string)
| VArray (elems : list data)
| VSlice (elems : option (list data))
| VMap (entries : option (list (data * data)))
| VPtr (p : option (Z * data))
| VStruct (fields : list data)
| VFunc (code : option Z)
| VBound (rcvr_typ : rtype) (rcvr : data) (name : string)
| VChan (c : option Z)
| VIface (dyn : option (rtype * data))
| VUnsafePointer (addr : Z).

(** [interface{}]: nil, or a value with its dynamic type. *)
Definition iface : Type := option (rtype * data).

(** [reflect.Value]: the zero Value, a value with its type and the flags
    [flagRO] (reached through an unexported field) and [flagAddr]
    (addressable), or a method bound to a receiver ([flagMethod]). *)
Inductive Value :=
| NoValue
| Val (typ : rtype) (d : data) (ro addr : bool)
| MethodVal (rcvr_typ : rtype) (rcvr : data) (name : string) (sig : rtype)
            (ro : bool).

(** ** Panics

    Every failure of runtime.go is a Go panic.  The panics of runtime.go itself
    are [fmt.Sprintf] strings, kept here as the format they come from and the
    arguments they print; the others are raised inside package reflect, by the
    Go runtime, or by the host's [Fetch]. *)
Inductive panic :=
| CannotFetch (i : iface) (T : option rtype)
    (* "cannot fetch %v from %T", i, from *)
| CannotSlice (from : iface)
    (* "cannot slice %v", from *)
| CannotGet (name : string) (T : option rtype)
    (* `cannot get "%v" from %T`, name, from *)
| InvalidOperation (op : string) (T : option rtype)
    (* "invalid operation: - %T", "invalid operation: int(%T)", ... *)
| ValueError (method : string) (k : reflect.Kind)
    (* *reflect.ValueError: call of Method on Kind Value *)
| ReflectPanic (msg : string)
| RuntimeError (msg : string)
| HostPanic (payload : iface)
| IllFormed.
    (* the data does not inhabit its type; no Go value gets here *)

Inductive result (A : Type) :=
| Ok (a : A)
| Panic (p : panic).
Arguments Ok {A} a.
Arguments Panic {A} p.

Definition bind {A B} (r : result A) (k : A -> result B) : result B :=
  match r with
  | Ok a => k a
  | Panic p => Panic p
  end.

Declare Scope go_scope.
Delimit Scope go_scope with go.
Notation "x <- c ;; k" := (bind c (fun x => k))
  (at level 61, c at next level, right associativity) : go_scope.
Local Open Scope go_scope.

(** ** Types: kind, identity, method sets, zero values *)

Section Forall2b.
Context {A B : Type} (f : A -> B -> bool).

Fixpoint forall2b (l : list A) (l' : list B) : bool :=
  match l, l' with
  | [], [] => true
  | x :: xs, y :: ys => f x y && forall2b xs ys
  | _, _ => false
  end.
End Forall2b.

(** [Type.Kind]. *)
Fixpoint Type_Kind (t : rtype) : reflect.Kind :=
  match t with
  | Basic k => k
  | ArrayOf _ _ => reflect.Array
  | ChanOf _ => reflect.Chan
  | FuncOf _ _ => reflect.Func
  | InterfaceOf _ => reflect.Interface
  | MapOf _ _ => reflect.Map
  | PointerTo _ => reflect.Pointer
  | SliceOf _ => reflect.Slice
  | StructOf _ => reflect.Struct
  | Named _ _ _ u => Type_Kind u
  end.

Definition underlying (t : rtype) : rtype :=
  match t with
  | Named _ _ _ u => u
  | _ => t
  end.

(** A type has a name when it is predeclared or defined. *)
Definition HasName (t : rtype) : bool :=
  match t with
  | Basic _ | Named _ _ _ _ => true
  | _ => false
  end.

(** Type identity. *)
Fixpoint rtype_eqb (a b : rtype) {struct a} : bool :=
  match a, b with
  | Basic k, Basic k' => reflect.Kind_eqb k k'
  | ArrayOf n e, ArrayOf n' e' => Nat.eqb n n' && rtype_eqb e e'
  | ChanOf e, ChanOf e' => rtype_eqb e e'
  | FuncOf i o, FuncOf i' o' =>
      forall2b rtype_eqb i i' && forall2b rtype_eqb o o'
  | InterfaceOf ms, InterfaceOf ms' =>
      forall2b (fun m m' =>
                  let '(n, t) := m in
                  let '(n', t') := m' in
                  String.eqb n n' && rtype_eqb t t') ms ms'
  | MapOf k e, MapOf k' e' => rtype_eqb k k' && rtype_eqb e e'
  | PointerTo e, PointerTo e' => rtype_eqb e e'
  | SliceOf e, SliceOf e' => rtype_eqb e e'
  | StructOf fs, StructOf fs' =>
      forall2b (fun f f' =>
                  let '(n, x, t) := f in
                  let '(n', x', t') := f' in
                  String.eqb n n' && Bool.eqb x x' && rtype_eqb t t') fs fs'
  | Named n _ _ _, Named n' _ _ _ => String.eqb n n'
  | _, _ => false
  end.

(** The exported method set of a type: name and signature of each method. *)
Definition method_set (t : rtype) : list (string * rtype) :=
  match t with
  | InterfaceOf ms => ms
  | Named _ ms _ u =>
      match u with
      | InterfaceOf ims => ims
      | _ => ms
      end
  | PointerTo (Named _ ms pms u) =>
      match u with
      | InterfaceOf _ | PointerTo _ => []
      | _ => ms ++ pms
      end
  | _ => []
  end.

Definition lookup_method (name : string) (t : rtype) : option rtype :=
  option_map snd
    (find (fun m => String.eqb (fst m) name) (method_set t)).

(** Whether the method set of [V] has every method of the interface [T]. *)
Definition implements (T V : rtype) : bool :=
  match Type_Kind T with
  | reflect.Interface =>
      forallb (fun m =>
                 match lookup_method (fst m) V with
                 | Some sig => rtype_eqb (snd m) sig
                 | None => false
                 end) (method_set T)
  | _ => false
  end.

(** reflect's [directlyAssignable]. *)
Definition directlyAssignable (T V : rtype) : bool :=
  rtype_eqb T V
  || (negb (HasName T && HasName V)
      && reflect.Kind_eqb (Type_Kind T) (Type_Kind V)
      && rtype_eqb (underlying T) (underlying V)).

(** Whether [==] is defined on the values of a type. *)
Fixpoint comparable (t : rtype) : bool :=
  match t with
  | Basic _ | ChanOf _ | InterfaceOf _ | PointerTo _ => true
  | FuncOf _ _ | MapOf _ _ | SliceOf _ => false
  | ArrayOf _ e => comparable e
  | StructOf fs => forallb (fun f => let '(_, _, t) := f in comparable t) fs
  | Named _ _ _ u => comparable u
  end.

Definition float_zero : spec_float := S754_zero false.

(** The zero value of a type. *)
Fixpoint zero_data (t : rtype) : data :=
  match t with
  | Basic k =>
      match k with
      | reflect.Bool => VBool false
      | reflect.String => VString ""
      | reflect.Float32 | reflect.Float64 => VFloat float_zero
      | reflect.Complex64 | reflect.Complex128 =>
          VComplex float_zero float_zero
      | reflect.UnsafePointer => VUnsafePointer 0
      | _ => VInt 0
      end
  | ArrayOf n e => VArray (repeat (zero_data e) n)
  | ChanOf _ => VChan None
  | FuncOf _ _ => VFunc None
  | InterfaceOf _ => VIface None
  | MapOf _ _ => VMap None
  | PointerTo _ => VPtr None
  | SliceOf _ => VSlice None
  | StructOf fs => VStruct (map (fun f => let '(_, _, t) := f in zero_data t) fs)
  | Named _ _ _ u => zero_data u
  end.

(** [Type.String], for the [%T] of a panic and [Value.String]. *)
Definition Kind_String (k : reflect.Kind) : string :=
  match k with
  | reflect.Invalid => "invalid"
  | reflect.Bool => "bool"
  | reflect.Int => "int" | reflect.Int8 => "int8" | reflect.Int16 => "int16"
  | reflect.Int32 => "int32" | reflect.Int64 => "int64"
  | reflect.Uint => "uint" | reflect.Uint8 => "uint8"
  | reflect.Uint16 => "uint16" | reflect.Uint32 => "uint32"
  | reflect.Uint64 => "uint64" | reflect.Uintptr => "uintptr"
  | reflect.Float32 => "float32" | reflect.Float64 => "float64"
  | reflect.Complex64 => "complex64" | reflect.Complex128 => "complex128"
  | reflect.Array => "array" | reflect.Chan => "chan" | reflect.Func => "func"
  | reflect.Interface => "interface" | reflect.Map => "map"
  | reflect.Pointer => "ptr" | reflect.Slice => "slice"
  | reflect.String => "string" | reflect.Struct => "struct"
  | reflect.UnsafePointer => "unsafe.Pointer"
  end.

Definition decimal (n : nat) : string :=
  DecimalString.NilZero.string_of_uint (Nat.to_uint n).

Definition join (sep : string) (l : list string) : string :=
  match l with
  | [] => ""
  | x :: xs => fold_left (fun acc s => (acc ++ sep ++ s)%string) xs x
  end.

(** The parameters and results of a func type or of an interface's method. *)
Definition signature (i o : list string) : string :=
  ("(" ++ join ", " i ++ ")"
   ++ match o with
      | [] => ""
      | [r] => " " ++ r
      | _ => " (" ++ join ", " o ++ ")"
      end)%string.

Fixpoint Type_String (t : rtype) : string :=
  match t with
  | Basic k => Kind_String k
  | ArrayOf n e => "[" ++ decimal n ++ "]" ++ Type_String e
  | ChanOf e => "chan " ++ Type_String e
  | FuncOf i o => "func" ++ signature (map Type_String i) (map Type_String o)
  | InterfaceOf ms =>
      match ms with
      | [] => "interface {}"
      | _ => "interface { "
             ++ join "; "
                  (map (fun m =>
                          let '(n, f) := m in
                          n ++ match f with
                               | FuncOf i o =>
                                   signature (map Type_String i)
                                             (map Type_String o)
                               | _ => " " ++ Type_String f
                               end) ms)
             ++ " }"
      end
  | MapOf k e => "map[" ++ Type_String k ++ "]" ++ Type_String e
  | PointerTo e => "*" ++ Type_String e
  | SliceOf e => "[]" ++ Type_String e
  | StructOf fs =>
      match fs with
      | [] => "struct {}"
      | _ => "struct { "
             ++ join "; " (map (fun f => let '(n, _, t) := f in
                                         n ++ " " ++ Type_String t) fs)
             ++ " }"
      end
  | Named n _ _ _ => n
  end%string.

(** ** The methods of reflect.Value *)

(** Go's [==] on two values of one comparable type: floats compare as IEEE
    numbers, pointers and channels by identity, interfaces by dynamic type
    and value; slices, maps and funcs have no [==]. *)
Fixpoint data_eqb (a b : data) {struct a} : bool :=
  match a, b with
  | VBool x, VBool y => Bool.eqb x y
  | VInt x, VInt y => Z.eqb x y
  | VFloat x, VFloat y => SFeqb x y
  | VComplex xr xi, VComplex yr yi => SFeqb xr yr && SFeqb xi yi
  | VString x, VString y => String.eqb x y
  | VArray xs, VArray ys => forall2b data_eqb xs ys
  | VStruct xs, VStruct ys => forall2b data_eqb xs ys
  | VPtr None, VPtr None => true
  | VPtr (Some (p, _)), VPtr (Some (q, _)) => Z.eqb p q
  | VChan None, VChan None => true
  | VChan (Some p), VChan (Some q) => Z.eqb p q
  | VIface None, VIface None => true
  | VIface (Some (t, x)), VIface (Some (u, y)) => rtype_eqb t u && data_eqb x y
  | VUnsafePointer p, VUnsafePointer q => Z.eqb p q
  | _, _ => false
  end.

Definition ValueOf (i : iface) : Value :=
  match i with
  | None => NoValue
  | Some (t, d) => Val t d false false
  end.

Definition TypeOf (i : iface) : option rtype := option_map fst i.

Definition Zero (t : rtype) : Value := Val t (zero_data t) false false.

Definition Value_IsValid (v : Value) : bool :=
  match v with
  | NoValue => false
  | _ => true
  end.

Definition Value_Kind (v : Value) : reflect.Kind :=
  match v with
  | NoValue => reflect.Invalid
  | Val t _ _ _ => Type_Kind t
  | MethodVal _ _ _ _ _ => reflect.Func
  end.

Definition flagRO (v : Value) : bool :=
  match v with
  | NoValue => false
  | Val _ _ ro _ => ro
  | MethodVal _ _ _ _ ro => ro
  end.

(** [v.CanInterface()]. *)
Definition Value_CanInterface (v : Value) : result bool :=
  match v with
  | NoValue => Panic (ValueError "reflect.Value.CanInterface" reflect.Invalid)
  | _ => Ok (negb (flagRO v))
  end.

Definition unexported_msg : string :=
  "reflect.Value.Interface: cannot return value obtained from unexported field or method".

(** [v.Interface()]: a Value of interface kind yields the value inside the
    interface, any other its own value. *)
Definition Value_Interface (v : Value) : result iface :=
  match v with
  | NoValue => Panic (ValueError "reflect.Value.Interface" reflect.Invalid)
  | Val t d ro _ =>
      if ro then Panic (ReflectPanic unexported_msg)
      else match Type_Kind t, d with
           | reflect.Interface, VIface i => Ok i
           | reflect.Interface, _ => Panic IllFormed
           | _, _ => Ok (Some (t, d))
           end
  | MethodVal rt r name sig ro =>
      if ro then Panic (ReflectPanic unexported_msg)
      else Ok (Some (sig, VBound rt r name))
  end.

(** [v.Elem()]: the value an interface holds or a pointer points to; the
    zero Value when that is nil. *)
Definition Value_Elem (v : Value) : result Value :=
  match v with
  | NoValue => Panic (ValueError "reflect.Value.Elem" reflect.Invalid)
  | Val t d ro _ =>
      match Type_Kind t with
      | reflect.Interface =>
          match d with
          | VIface None => Ok NoValue
          | VIface (Some (t', d')) => Ok (Val t' d' ro false)
          | _ => Panic IllFormed
          end
      | reflect.Pointer =>
          match d, underlying t with
          | VPtr None, _ => Ok NoValue
          | VPtr (Some (_, d')), PointerTo e => Ok (Val e d' ro true)
          | _, _ => Panic IllFormed
          end
      | k => Panic (ValueError "reflect.Value.Elem" k)
      end
  | MethodVal _ _ _ _ _ => Panic (ValueError "reflect.Value.Elem" reflect.Func)
  end.

(** [reflect.Indirect(v)]. *)
Definition Indirect (v : Value) : result Value :=
  match Value_Kind v with
  | reflect.Pointer => Value_Elem v
  | _ => Ok v
  end.

(** [v.Len()].  A channel is modelled without its buffer. *)
Definition Value_Len (v : Value) : result Z :=
  match v with
  | Val t d _ _ =>
      match Type_Kind t, d, underlying t with
      | reflect.Array, VArray _, ArrayOf n _ => Ok (Z.of_nat n)
      | reflect.Slice, VSlice None, SliceOf _ => Ok 0
      | reflect.Slice, VSlice (Some l), SliceOf _ =>
          Ok (Z.of_nat (List.length l))
      | reflect.String, VString s, _ => Ok (Z.of_nat (String.length s))
      | reflect.Map, VMap None, _ => Ok 0
      | reflect.Map, VMap (Some m), _ => Ok (Z.of_nat (List.length m))
      | reflect.Chan, VChan _, _ => Ok 0
      | (reflect.Array | reflect.Slice | reflect.String | reflect.Map
         | reflect.Chan), _, _ => Panic IllFormed
      | k, _, _ => Panic (ValueError "reflect.Value.Len" k)
      end
  | _ => Panic (ValueError "reflect.Value.Len" (Value_Kind v))
  end.

Definition byte_of_ascii (c : ascii) : data := VInt (Z.of_N (N_of_ascii c)).

(** [v.Index(i)]: no clamping, [uint(i) >= uint(len)] panics. *)
Definition Value_Index (v : Value) (i : Z) : result Value :=
  match v with
  | Val t d ro addr =>
      match Type_Kind t with
      | reflect.Array =>
          match d, underlying t with
          | VArray l, ArrayOf n e =>
              if (i <? 0) || (Z.of_nat n <=? i)
              then Panic (ReflectPanic "reflect: array index out of range")
              else match nth_error l (Z.to_nat i) with
                   | Some x => Ok (Val e x ro addr)
                   | None => Panic IllFormed
                   end
          | _, _ => Panic IllFormed
          end
      | reflect.Slice =>
          match d, underlying t with
          | VSlice s, SliceOf e =>
              let l := match s with Some l => l | None => [] end in
              if (i <? 0) || (Z.of_nat (List.length l) <=? i)
              then Panic (ReflectPanic "reflect: slice index out of range")
              else match nth_error l (Z.to_nat i) with
                   | Some x => Ok (Val e x ro true)
                   | None => Panic IllFormed
                   end
          | _, _ => Panic IllFormed
          end
      | reflect.String =>
          match d with
          | VString s =>
              if (i <? 0) || (Z.of_nat (String.length s) <=? i)
              then Panic (ReflectPanic "reflect: string index out of range")
              else match String.get (Z.to_nat i) s with
                   | Some c =>
                       Ok (Val (Basic reflect.Uint8) (byte_of_ascii c) ro false)
                   | None => Panic IllFormed
                   end
          | _ => Panic IllFormed
          end
      | k => Panic (ValueError "reflect.Value.Index" k)
      end
  | _ => Panic (ValueError "reflect.Value.Index" (Value_Kind v))
  end.

Definition sub_list {A} (a b : Z) (l : list A) : list A :=
  firstn (Z.to_nat (b - a)) (skipn (Z.to_nat a) l).

Definition sub_string (a b : Z) (s : string) : string :=
  String.substring (Z.to_nat a) (Z.to_nat (b - a)) s.

(** [v.Slice(i, j)]: [v[i:j]], of the type of [v]; an array has to be
    addressable, and the bounds are checked, not clamped. *)
Definition Value_Slice (v : Value) (i j : Z) : result Value :=
  match v with
  | Val t d ro addr =>
      match Type_Kind t with
      | reflect.Array =>
          if negb addr
          then Panic (ReflectPanic "reflect.Value.Slice: slice of unaddressable array")
          else match d, underlying t with
               | VArray l, ArrayOf n e =>
                   if (i <? 0) || (j <? i) || (Z.of_nat n <? j)
                   then Panic (ReflectPanic "reflect.Value.Slice: slice index out of bounds")
                   else Ok (Val (SliceOf e) (VSlice (Some (sub_list i j l))) ro true)
               | _, _ => Panic IllFormed
               end
      | reflect.Slice =>
          match d with
          | VSlice s =>
              let l := match s with Some l => l | None => [] end in
              if (i <? 0) || (j <? i) || (Z.of_nat (List.length l) <? j)
              then Panic (ReflectPanic "reflect.Value.Slice: slice index out of bounds")
              else Ok (Val t (VSlice (option_map (sub_list i j) s)) ro true)
          | _ => Panic IllFormed
          end
      | reflect.String =>
          match d with
          | VString s =>
              if (i <? 0) || (j <? i) || (Z.of_nat (String.length s) <? j)
              then Panic (ReflectPanic "reflect.Value.Slice: string slice index out of bounds")
              else Ok (Val t (VString (sub_string i j s)) ro addr)
          | _ => Panic IllFormed
          end
      | k => Panic (ValueError "reflect.Value.Slice" k)
      end
  | _ => Panic (ValueError "reflect.Value.Slice" (Value_Kind v))
  end.

(** The two panics of a map access by a key that cannot be one: of
    [assignTo] for a key of another type, with [context] the calling method,
    and of the runtime for a key whose dynamic type has no [==]. *)
Definition not_assignable (context : string) (t dst : rtype) : panic :=
  ReflectPanic (context ++ ": value of type " ++ Type_String t
                ++ " is not assignable to type " ++ Type_String dst).

Definition unhashable (t : rtype) : panic :=
  RuntimeError ("hash of unhashable type " ++ Type_String t).

(** [key.assignTo("reflect.Value.MapIndex", keyType, nil)] inside [MapIndex]:
    the key as a value of the map's key type.  A key of another type panics,
    the zero Value as well (nil dereference of its type); a key stored in an
    interface has to be of a type with [==]. *)
Definition assign_key (keyT : rtype) (key : Value) : result data :=
  match key with
  | NoValue =>
      Panic (RuntimeError "invalid memory address or nil pointer dereference")
  | Val t d _ _ =>
      if directlyAssignable keyT t then Ok d
      else if implements keyT t then
        match Type_Kind t, d with
        | reflect.Interface, VIface None => Ok (VIface None)
        | reflect.Interface, VIface (Some (t', d')) =>
            if comparable t' then Ok (VIface (Some (t', d')))
            else Panic (unhashable t')
        | reflect.Interface, _ => Panic IllFormed
        | _, _ =>
            if comparable t then Ok (VIface (Some (t, d)))
            else Panic (unhashable t)
        end
      else Panic (not_assignable "reflect.Value.MapIndex" t keyT)
  | MethodVal _ _ _ sig _ =>
      if implements keyT sig then Panic (unhashable sig)
      else Panic (not_assignable "reflect.Value.MapIndex" sig keyT)
  end.

Fixpoint map_lookup (k : data) (m : list (data * data)) : option data :=
  match m with
  | [] => None
  | (k', x) :: m' => if data_eqb k' k then Some x else map_lookup k m'
  end.

(** [v.MapIndex(key)]: the zero Value when the key is not in the map (a nil
    map has no keys). *)
Definition Value_MapIndex (v key : Value) : result Value :=
  match v with
  | Val t d ro _ =>
      match Type_Kind t with
      | reflect.Map =>
          match d, underlying t with
          | VMap m, MapOf keyT elemT =>
              k <- assign_key keyT key ;;
              match map_lookup k (match m with Some l => l | None => [] end) with
              | Some x => Ok (Val elemT x (ro || flagRO key) false)
              | None => Ok NoValue
              end
          | _, _ => Panic IllFormed
          end
      | k => Panic (ValueError "reflect.Value.MapIndex" k)
      end
  | _ => Panic (ValueError "reflect.Value.MapIndex" (Value_Kind v))
  end.

Fixpoint find_field (name : string) (fs : list (string * bool * rtype))
         (ds : list data) : option (bool * rtype * data) :=
  match fs, ds with
  | (n, exported, t) :: fs', d :: ds' =>
      if String.eqb n name then Some (exported, t, d)
      else find_field name fs' ds'
  | _, _ => None
  end.

(** [v.FieldByName(name)]: the zero Value when the struct has no such field;
    a field that is not exported is read-only. *)
Definition Value_FieldByName (v : Value) (name : string) : result Value :=
  match v with
  | Val t d ro addr =>
      match Type_Kind t with
      | reflect.Struct =>
          match d, underlying t with
          | VStruct ds, StructOf fs =>
              match find_field name fs ds with
              | Some (exported, ft, fd) =>
                  Ok (Val ft fd (ro || negb exported) addr)
              | None => Ok NoValue
              end
          | _, _ => Panic IllFormed
          end
      | k => Panic (ValueError "reflect.Value.FieldByName" k)
      end
  | _ => Panic (ValueError "reflect.Value.FieldByName" (Value_Kind v))
  end.

(** [v.NumMethod()]. *)
Definition Value_NumMethod (v : Value) : result Z :=
  match v with
  | NoValue => Panic (ValueError "reflect.Value.NumMethod" reflect.Invalid)
  | Val t _ _ _ => Ok (Z.of_nat (List.length (method_set t)))
  | MethodVal _ _ _ _ _ => Ok 0
  end.

(** [v.IsNil()]. *)
Definition Value_IsNil (v : Value) : result bool :=
  match v with
  | NoValue => Panic (ValueError "reflect.Value.IsNil" reflect.Invalid)
  | Val t d _ _ =>
      match Type_Kind t with
      | reflect.Chan | reflect.Func | reflect.Map | reflect.Pointer
      | reflect.UnsafePointer | reflect.Interface | reflect.Slice =>
          match d with
          | VChan c => Ok (match c with None => true | Some _ => false end)
          | VFunc c => Ok (match c with None => true | Some _ => false end)
          | VBound _ _ _ => Ok false
          | VMap m => Ok (match m with None => true | Some _ => false end)
          | VPtr p => Ok (match p with None => true | Some _ => false end)
          | VUnsafePointer a => Ok (a =? 0)
          | VIface i => Ok (match i with None => true | Some _ => false end)
          | VSlice s => Ok (match s with None => true | Some _ => false end)
          | _ => Panic IllFormed
          end
      | k => Panic (ValueError "reflect.Value.IsNil" k)
      end
  | MethodVal _ _ _ _ _ => Ok false
  end.

(** [v.MethodByName(name)]: the method bound to [v], or the zero Value. *)
Definition Value_MethodByName (v : Value) (name : string) : result Value :=
  match v with
  | NoValue => Panic (ValueError "reflect.Value.MethodByName" reflect.Invalid)
  | Val t d ro _ =>
      match lookup_method name t with
      | None => Ok NoValue
      | Some sig =>
          match Type_Kind t, d with
          | reflect.Interface, VIface None =>
              Panic (ReflectPanic "reflect: Method on nil interface value")
          | _, _ => Ok (MethodVal t d name sig ro)
          end
      end
  | MethodVal _ _ _ _ _ => Ok NoValue
  end.

(** [v.String()]: the string of a string Value; for any other Value a
    description in angle brackets, never a panic. *)
Definition Value_String (v : Value) : string :=
  match v with
  | NoValue => "<invalid Value>"
  | Val t d _ _ =>
      match Type_Kind t, d with
      | reflect.String, VString s => s
      | _, _ => "<" ++ Type_String t ++ " Value>"
      end
  | MethodVal _ _ _ sig _ => "<" ++ Type_String sig ++ " Value>"
  end%string.

(** [t.Elem()], on the [reflect.Type] of a non-nil interface. *)
Definition Type_Elem (t : option rtype) : result rtype :=
  match t with
  | None =>
      Panic (RuntimeError "invalid memory address or nil pointer dereference")
  | Some t =>
      match underlying t with
      | ArrayOf _ e | ChanOf e | MapOf _ e | PointerTo e | SliceOf e => Ok e
      | _ => Panic (ReflectPanic "reflect: Elem of invalid type")
      end
  end.

(** ** vm/runtime.go *)

(** [type Fetcher interface { Fetch(interface{}) interface{} }] *)
Definition emptyInterface : rtype := InterfaceOf [].

Definition Fetcher : rtype :=
  Named "vm.Fetcher" [] []
        (InterfaceOf [("Fetch"%string, FuncOf [emptyInterface] [emptyInterface])]).

(** The type assertion [from.(Fetcher)]: the value when it is not nil and its
    dynamic type has the method. *)
Definition assert_Fetcher (from : iface) : option (rtype * data) :=
  match from with
  | Some (t, d) => if implements Fetcher t then Some (t, d) else None
  | None => None
  end.

(** Width and signedness of the integer kinds the conversions handle. *)
Definition kind_bits (ws : WordSize) (k : reflect.Kind) : Z :=
  match k with
  | reflect.Int8 | reflect.Uint8 => 8
  | reflect.Int16 | reflect.Uint16 => 16
  | reflect.Int32 | reflect.Uint32 => 32
  | reflect.Int64 | reflect.Uint64 => 64
  | _ => word_bits ws
  end.

(** The integer part of a float, when it has one. *)
Definition float_trunc (f : spec_float) : option Z :=
  match f with
  | S754_zero _ => Some 0
  | S754_finite s m e =>
      let a := Z.shiftl (Z.pos m) e in
      Some (if s then - a else a)
  | S754_infinity _ | S754_nan => None
  end.

Section Runtime.

(** The width of [int]. *)
Variable ws : WordSize.

(** What the platform yields when a float is converted to an integer type
    of the given width that cannot represent it (Go leaves it to the
    implementation). *)
Variable float_unrepresentable : Z -> spec_float -> Z.

(** The host's [Fetch] method, on a receiver of a type that has one. *)
Variable Fetch : rtype -> data -> iface -> result iface.

(** The conversion [T(x)] of a float to a signed integer type of [w] bits:
    truncation toward zero. *)
Definition float_to_int (w : Z) (x : spec_float) : Z :=
  match float_trunc x with
  | Some z =>
      if (- 2 ^ (w - 1) <=? z) && (z <? 2 ^ (w - 1)) then z
      else wrap_signed w (float_unrepresentable w x)
  | None => wrap_signed w (float_unrepresentable w x)
  end.

Definition toInt (a : iface) : result Z :=
  let W := word_bits ws in
  match a with
  | Some (Basic k, x) =>
      match k, x with
      | reflect.Float32, VFloat x => Ok (float_to_int W x)
      | reflect.Float64, VFloat x => Ok (float_to_int W x)

      | reflect.Int, VInt x => Ok x
      | reflect.Int8, VInt x => Ok (wrap_signed W x)
      | reflect.Int16, VInt x => Ok (wrap_signed W x)
      | reflect.Int32, VInt x => Ok (wrap_signed W x)
      | reflect.Int64, VInt x => Ok (wrap_signed W x)

      | reflect.Uint, VInt x => Ok (wrap_signed W x)
      | reflect.Uint8, VInt x => Ok (wrap_signed W x)
      | reflect.Uint16, VInt x => Ok (wrap_signed W x)
      | reflect.Uint32, VInt x => Ok (wrap_signed W x)
      | reflect.Uint64, VInt x => Ok (wrap_signed W x)

      | (reflect.Float32 | reflect.Float64 | reflect.Int | reflect.Int8
         | reflect.Int16 | reflect.Int32 | reflect.Int64 | reflect.Uint
         | reflect.Uint8 | reflect.Uint16 | reflect.Uint32
         | reflect.Uint64), _ => Panic IllFormed
      | _, _ => Panic (InvalidOperation "int(%T)" (TypeOf a))
      end
  | _ => Panic (InvalidOperation "int(%T)" (TypeOf a))
  end.

Definition toInt64 (a : iface) : result Z :=
  match a with
  | Some (Basic k, x) =>
      match k, x with
      | reflect.Float32, VFloat x => Ok (float_to_int 64 x)
      | reflect.Float64, VFloat x => Ok (float_to_int 64 x)

      | reflect.Int, VInt x => Ok (wrap_signed 64 x)
      | reflect.Int8, VInt x => Ok (wrap_signed 64 x)
      | reflect.Int16, VInt x => Ok (wrap_signed 64 x)
      | reflect.Int32, VInt x => Ok (wrap_signed 64 x)
      | reflect.Int64, VInt x => Ok x

      | reflect.Uint, VInt x => Ok (wrap_signed 64 x)
      | reflect.Uint8, VInt x => Ok (wrap_signed 64 x)
      | reflect.Uint16, VInt x => Ok (wrap_signed 64 x)
      | reflect.Uint32, VInt x => Ok (wrap_signed 64 x)
      | reflect.Uint64, VInt x => Ok (wrap_signed 64 x)

      | (reflect.Float32 | reflect.Float64 | reflect.Int | reflect.Int8
         | reflect.Int16 | reflect.Int32 | reflect.Int64 | reflect.Uint
         | reflect.Uint8 | reflect.Uint16 | reflect.Uint32
         | reflect.Uint64), _ => Panic IllFormed
      | _, _ => Panic (InvalidOperation "int64(%T)" (TypeOf a))
      end
  | _ => Panic (InvalidOperation "int64(%T)" (TypeOf a))
  end.

(** [-v] on each of the twelve types of the type switch. *)
Definition negate (i : iface) : result iface :=
  let neg_signed k v := Ok (Some (Basic k, VInt (wrap_signed (kind_bits ws k) (- v)))) in
  let neg_unsigned k v := Ok (Some (Basic k, VInt (wrap_unsigned (kind_bits ws k) (- v)))) in
  match i with
  | Some (Basic k, v) =>
      match k, v with
      | reflect.Float32, VFloat v => Ok (Some (Basic k, VFloat (SFopp v)))
      | reflect.Float64, VFloat v => Ok (Some (Basic k, VFloat (SFopp v)))

      | reflect.Int, VInt v => neg_signed k v
      | reflect.Int8, VInt v => neg_signed k v
      | reflect.Int16, VInt v => neg_signed k v
      | reflect.Int32, VInt v => neg_signed k v
      | reflect.Int64, VInt v => neg_signed k v

      | reflect.Uint, VInt v => neg_unsigned k v
      | reflect.Uint8, VInt v => neg_unsigned k v
      | reflect.Uint16, VInt v => neg_unsigned k v
      | reflect.Uint32, VInt v => neg_unsigned k v
      | reflect.Uint64, VInt v => neg_unsigned k v

      | (reflect.Float32 | reflect.Float64 | reflect.Int | reflect.Int8
         | reflect.Int16 | reflect.Int32 | reflect.Int64 | reflect.Uint
         | reflect.Uint8 | reflect.Uint16 | reflect.Uint32
         | reflect.Uint64), _ => Panic IllFormed
      | _, _ => Panic (InvalidOperation "- %T" (TypeOf i))
      end
  | _ => Panic (InvalidOperation "- %T" (TypeOf i))
  end.

(** The table [deref] of [normalize]. *)
Definition deref (k : reflect.Kind) : bool :=
  match k with
  | reflect.Bool
  | reflect.Complex128 | reflect.Complex64
  | reflect.Float32 | reflect.Float64
  | reflect.Int16 | reflect.Int32 | reflect.Int64 | reflect.Int8
  | reflect.Int
  | reflect.Map | reflect.Slice | reflect.String
  | reflect.Uint16 | reflect.Uint32 | reflect.Uint64 | reflect.Uint8
  | reflect.Uint => true
  | _ => false
  end.

Definition normalize (v : Value) : result iface :=
  v <- (if reflect.Kind_eqb (Value_Kind v) reflect.Interface
        then e <- Value_Elem v ;;
             if reflect.Kind_eqb (Value_Kind e) reflect.Pointer
             then Ok e else Ok v
        else Ok v) ;;
  v <- (if reflect.Kind_eqb (Value_Kind v) reflect.Pointer
        then e <- Value_Elem v ;;
             if deref (Value_Kind e) then Ok e else Ok v
        else Ok v) ;;
  Value_Interface v.

(** The table [follow] of [fetch]. *)
Definition follow (k : reflect.Kind) : bool :=
  match k with
  | reflect.Map | reflect.Slice | reflect.Struct => true
  | _ => false
  end.

Definition fetch (from i : iface) (nilsafe : bool) : result iface :=
  match assert_Fetcher from with
  | Some (rt, rcvr) =>
      value <- Fetch rt rcvr i ;;
      match value with
      | Some _ => Ok value
      | None =>
          if negb nilsafe then Panic (CannotFetch i (TypeOf from))
          else Ok None
      end
  | None =>
      let v := ValueOf from in
      let kind := Value_Kind v in
      v <- (if reflect.Kind_eqb kind reflect.Ptr
            then e <- Indirect v ;;
                 if follow (Value_Kind e) then Ok e else Ok v
            else Ok v) ;;
      let kind := Value_Kind v in
      match kind with
      | reflect.Array | reflect.Slice | reflect.String =>
          n <- toInt i ;;
          x <- Value_Index v n ;;
          normalize x
      | reflect.Map =>
          value <- Value_MapIndex v (ValueOf i) ;;
          if Value_IsValid value then normalize value
          else
            elem <- Type_Elem (TypeOf from) ;;
            Value_Interface (Zero elem)
      | reflect.Struct =>
          x <- Value_FieldByName v (Value_String (ValueOf i)) ;;
          normalize x
      | _ =>
          if negb nilsafe then Panic (CannotFetch i (TypeOf from))
          else Ok None
      end
  end.

(** The first case of [slice], on a Value of kind array, slice or string:
    both bounds clamped, then [v.Slice]. *)
Definition slice_clamped (v : Value) (from to : iface) : result iface :=
  length <- Value_Len v ;;
  a <- toInt from ;;
  b <- toInt to ;;
  let b := if b >? length then length else b in
  let a := if a >? b then b else a in
  value <- Value_Slice v a b ;;
  ok <- (if Value_IsValid value then Value_CanInterface value
         else Ok false) ;;
  if ok then Value_Interface value
  else Panic (CannotSlice from).

(** [slice] calls itself on what a pointer points to, so the recursion is
    on the value; [slice_eq] below gives the body as the source has it. *)
Fixpoint slice_at (t : rtype) (d : data) (from to : iface) {struct d}
  : result iface :=
  match Type_Kind t with
  | reflect.Array | reflect.Slice | reflect.String =>
      slice_clamped (Val t d false false) from to
  | reflect.Ptr =>
      match d, underlying t with
      | VPtr None, _ => Panic (CannotSlice from)
      | VPtr (Some (_, d')), PointerTo e =>
          match Type_Kind e, d' with
          | reflect.Interface, VIface None => Panic (CannotSlice from)
          | reflect.Interface, VIface (Some (t'', d'')) =>
              slice_at t'' d'' from to
          | reflect.Interface, _ => Panic IllFormed
          | _, _ => slice_at e d' from to
          end
      | _, _ => Panic IllFormed
      end
  | _ => Panic (CannotSlice from)
  end.

Definition slice (array from to : iface) : result iface :=
  match array with
  | Some (t, d) => slice_at t d from to
  | None => Panic (CannotSlice from)
  end.

Definition FetchFn (from : iface) (name : string) : result Value :=
  let v := ValueOf from in
  n <- Value_NumMethod v ;;
  method <- (if n >? 0 then Value_MethodByName v name else Ok NoValue) ;;
  if Value_IsValid method then Ok method
  else
    d <- (if reflect.Kind_eqb (Value_Kind v) reflect.Ptr
          then Value_Elem v else Ok v) ;;
    match Value_Kind d with
    | reflect.Map =>
        value <- Value_MapIndex d (ValueOf (Some (Basic reflect.String, VString name))) ;;
        ok <- (if Value_IsValid value then Value_CanInterface value
               else Ok false) ;;
        if ok then Value_Elem value
        else Panic (CannotGet name (TypeOf from))
    | reflect.Struct =>
        value <- Value_FieldByName d name ;;
        if Value_IsValid value then Ok value
        else Panic (CannotGet name (TypeOf from))
    | _ => Panic (CannotGet name (TypeOf from))
    end.

Definition FetchFnNil (from : iface) (name : string) : result Value :=
  let v := ValueOf from in
  if negb (Value_IsValid v) then Ok v
  else FetchFn from name.

Definition isNil (v : iface) : result bool :=
  match v with
  | None => Ok true
  | Some _ =>
      let r := ValueOf v in
      match Value_Kind r with
      | reflect.Chan | reflect.Func | reflect.Map | reflect.Ptr
      | reflect.Interface | reflect.Slice => Value_IsNil r
      | _ => Ok false
      end
  end.

End Runtime.

(** ** Well-formed values

    What the properties below ask of a value: at the top level the
    representation is the one of the kind of its type, and the dynamic type
    of an interface value is not itself an interface type. *)
Definition repr_ok (t : rtype) (d : data) : bool :=
  match Type_Kind t, d with
  | reflect.Bool, VBool _ => true
  | (reflect.Int | reflect.Int8 | reflect.Int16 | reflect.Int32
     | reflect.Int64 | reflect.Uint | reflect.Uint8 | reflect.Uint16
     | reflect.Uint32 | reflect.Uint64 | reflect.Uintptr), VInt _ => true
  | (reflect.Float32 | reflect.Float64), VFloat _ => true
  | (reflect.Complex64 | reflect.Complex128), VComplex _ _ => true
  | reflect.String, VString _ => true
  | reflect.Array, VArray l =>
      match underlying t with
      | ArrayOf n _ => Nat.eqb (List.length l) n
      | _ => false
      end
  | reflect.Slice, VSlice _ => true
  | reflect.Map, VMap _ => true
  | reflect.Pointer, VPtr _ => true
  | reflect.Struct, VStruct _ => true
  | reflect.Func, (VFunc _ | VBound _ _ _) => true
  | reflect.Chan, VChan _ => true
  | reflect.UnsafePointer, VUnsafePointer _ => true
  | _, _ => false
  end.

Definition well_formed (v : iface) : bool :=
  match v with
  | None => true
  | Some (t, d) => repr_ok t d
  end.

(** The range of an integer type. *)
Definition signed_kind (k : reflect.Kind) : bool :=
  match k with
  | reflect.Int | reflect.Int8 | reflect.Int16 | reflect.Int32
  | reflect.Int64 => true
  | _ => false
  end.

Definition unsigned_kind (k : reflect.Kind) : bool :=
  match k with
  | reflect.Uint | reflect.Uint8 | reflect.Uint16 | reflect.Uint32
  | reflect.Uint64 => true
  | _ => false
  end.

Definition float_kind (k : reflect.Kind) : bool :=
  match k with
  | reflect.Float32 | reflect.Float64 => true
  | _ => false
  end.

Definition min_int (w : Z) : Z := - 2 ^ (w - 1).
Definition max_int (w : Z) : Z := 2 ^ (w - 1) - 1.
Definition max_uint (w : Z) : Z := 2 ^ w - 1.

Definition in_range (ws : WordSize) (k : reflect.Kind) (z : Z) : Prop :=
  if signed_kind k
  then min_int (kind_bits ws k) <= z <= max_int (kind_bits ws k)
  else 0 <= z <= max_uint (kind_bits ws k).

Definition integer_kind (k : reflect.Kind) : bool :=
  signed_kind k || unsigned_kind k.

(** The types the switches of [negate], [toInt] and [toInt64] list. *)
Definition numeric (t : option rtype) : bool :=
  match t with
  | Some (Basic k) => signed_kind k || unsigned_kind k || float_kind k
  | _ => false
  end.

(** ** The nil policy, in the words of the specification

    A value is nil when it is the absent value, or when its kind is one a
    nil can inhabit (reference: pointer, channel, interface; map; sequence:
    slice; invocable: func) and its binding is nil. *)
Definition nilable (k : reflect.Kind) : bool :=
  match k with
  | reflect.Pointer | reflect.Chan | reflect.Interface
  | reflect.Map | reflect.Slice | reflect.Func => true
  | _ => false
  end.

Definition nil_binding (d : data) : bool :=
  match d with
  | VPtr None | VChan None | VIface None | VMap None | VSlice None
  | VFunc None => true
  | _ => false
  end.

Definition absent_or_nil (v : iface) : bool :=
  match v with
  | None => true
  | Some (t, d) => nilable (Type_Kind t) && nil_binding d
  end.

(** A key is absent from a map when the lookup goes through ([k] is of the
    key type) and finds no entry. *)
Definition key_absent (t : rtype) (m : option (list (data * data)))
           (key : iface) : Prop :=
  Value_MapIndex (Val t (VMap m) false false) (ValueOf key) = Ok NoValue.

(** The two clamps of [slice], as functions of the length and the bounds. *)
Definition clamp_to (len b : Z) : Z := if b >? len then len else b.
Definition clamp_from (b a : Z) : Z := if a >? b then b else a.

(** The kinds [fetch] indexes by an integer, and the panic of
    [reflect.Value.Index] on each. *)
Definition indexable (k : reflect.Kind) : bool :=
  match k with
  | reflect.Array | reflect.Slice | reflect.String => true
  | _ => false
  end.

Definition index_out_of_range (k : reflect.Kind) : string :=
  match k with
  | reflect.Array => "reflect: array index out of range"
  | reflect.Slice => "reflect: slice index out of range"
  | _ => "reflect: string index out of range"
  end.

(** The container the resolver looks into, the value itself or what it
    points to through one pointer, and the key it looks a name up with. *)
Definition resolver_target (v : Value) : result Value :=
  if reflect.Kind_eqb (Value_Kind v) reflect.Ptr then Value_Elem v else Ok v.

Definition name_key (name : string) : Value :=
  ValueOf (Some (Basic reflect.String, VString name)).

(** What the resolver looks into, in terms of the container: a container
    that is not a pointer is looked into itself and is not addressable; a
    pointer that is not nil is followed once, to a pointee that is
    addressable. *)
Inductive looks_into (t : rtype) :
  data -> rtype -> data -> bool -> Prop :=
| into_itself d :
    Type_Kind t <> reflect.Ptr -> looks_into t d t d false
| into_pointee e a x :
    underlying t = PointerTo e ->
    looks_into t (VPtr (Some (a, x))) e x true.

(** Whether a map with keys of type [K] can be asked for a string, which is
    when [string] is assignable to [K] as it is ([map[string]T]) or through an
    interface it implements ([map[interface{}]T]); and the key a name is
    then looked up by. *)
Definition accepts_string (K : rtype) : bool :=
  directlyAssignable K (Basic reflect.String)
  || implements K (Basic reflect.String).

Definition string_key (K : rtype) (name : string) : data :=
  if directlyAssignable K (Basic reflect.String) then VString name
  else VIface (Some (Basic reflect.String, VString name)).

(** ** vm/runtime.go: [in], [length] and [makeRange]

    The panics of [in] and [length] are messages of their own; [Raised] is a
    panic that comes from below, from package reflect, the Go runtime or
    [equal]. *)

Module Operators.

Inductive vm_panic :=
| Raised (p : panic)
| CannotUseAsIndex (needle array : option rtype)
    (* "cannot use %T as index to %T", needle, array *)
| CannotUseAsFieldName (needle array : option rtype)
    (* "cannot use %T as field name of %T", needle, array *)
| OperatorInNotDefined (array : option rtype)
    (* operator "in" not defined on %T, array *)
| InvalidArgumentForLen (a : option rtype).
    (* "invalid argument for len (type %T)", a *)

Inductive outcome (A : Type) :=
| Returns (a : A)
| Panics (p : vm_panic).
Arguments Returns {A} a.
Arguments Panics {A} p.

Definition lift {A} (r : result A) : outcome A :=
  match r with
  | Ok a => Returns a
  | Panic p => Panics (Raised p)
  end.

Definition and_then {A B} (o : outcome A) (k : A -> outcome B) : outcome B :=
  match o with
  | Returns a => k a
  | Panics p => Panics p
  end.

Notation "x <~ c ;; k" := (and_then c (fun x => k))
  (at level 61, c at next level, right associativity) : go_scope.

(** The type assertion [x.(bool)]. *)
Definition assert_bool (x : iface) : result bool :=
  match x with
  | Some (Basic reflect.Bool, VBool b) => Ok b
  | Some (Basic reflect.Bool, _) => Panic IllFormed
  | _ => Panic (RuntimeError "interface conversion: interface {} is not bool")
  end.

(** Go's [a + b] and [a - b] on [int]. *)
Definition int_add (ws : WordSize) (a b : Z) : Z :=
  wrap_signed (word_bits ws) (a + b).
Definition int_sub (ws : WordSize) (a b : Z) : Z :=
  wrap_signed (word_bits ws) (a - b).

Section Operators.

(** The width of [int]. *)
Variable ws : WordSize.

(** [equal], the equality operator of the package; its file is not among the
    sources, and [in] is taken over any such function. *)
Variable equal : iface -> iface -> result iface.

(** The loop of [in] over the indices of an array or slice, from the first
    one on: the first element [equal] to the needle ends it. *)
Fixpoint in_scan (needle : iface) (v : Value) (indices : list nat)
  : result bool :=
  match indices with
  | [] => Ok false
  | i :: rest =>
      value <- Value_Index v (Z.of_nat i) ;;
      ok <- (if Value_IsValid value then Value_CanInterface value
             else Ok false) ;;
      if ok then
        x <- Value_Interface value ;;
        r <- equal x needle ;;
        b <- assert_bool r ;;
        if b then Ok true else in_scan needle v rest
      else in_scan needle v rest
  end.

Definition in_sequence (needle : iface) (v : Value) : outcome bool :=
  len <~ lift (Value_Len v) ;;
  lift (in_scan needle v (seq 0 (Z.to_nat len))).

Definition in_map (needle : iface) (array : option rtype) (v : Value)
  : outcome bool :=
  let n := ValueOf needle in
  if negb (Value_IsValid n)
  then Panics (CannotUseAsIndex (TypeOf needle) array)
  else
    value <~ lift (Value_MapIndex v n) ;;
    if Value_IsValid value then Returns true else Returns false.

Definition in_struct (needle : iface) (array : option rtype) (v : Value)
  : outcome bool :=
  let n := ValueOf needle in
  if negb (Value_IsValid n)
     || negb (reflect.Kind_eqb (Value_Kind n) reflect.String)
  then Panics (CannotUseAsFieldName (TypeOf needle) array)
  else
    value <~ lift (Value_FieldByName v (Value_String n)) ;;
    if Value_IsValid value then Returns true else Returns false.

(** [in] calls itself on what a pointer points to, so the recursion is on
    the value; [in_eq] below gives the body as the source has it. *)
Fixpoint in_at (needle : iface) (t : rtype) (d : data) {struct d}
  : outcome bool :=
  match Type_Kind t with
  | reflect.Array | reflect.Slice =>
      in_sequence needle (Val t d false false)
  | reflect.Map => in_map needle (Some t) (Val t d false false)
  | reflect.Struct => in_struct needle (Some t) (Val t d false false)
  | reflect.Ptr =>
      match d, underlying t with
      | VPtr None, _ => Returns false
      | VPtr (Some (_, d')), PointerTo e =>
          match Type_Kind e, d' with
          | reflect.Interface, VIface None => Returns false
          | reflect.Interface, VIface (Some (t'', d'')) =>
              in_at needle t'' d''
          | reflect.Interface, _ => Panics (Raised IllFormed)
          | _, _ => in_at needle e d'
          end
      | _, _ => Panics (Raised IllFormed)
      end
  | _ => Panics (OperatorInNotDefined (Some t))
  end.

Definition in_ (needle array : iface) : outcome bool :=
  match array with
  | None => Returns false
  | Some (t, d) => in_at needle t d
  end.

Definition length (a : iface) : outcome Z :=
  let v := ValueOf a in
  match Value_Kind v with
  | reflect.Array | reflect.Slice | reflect.Map | reflect.String =>
      lift (Value_Len v)
  | _ => Panics (InvalidArgumentForLen (TypeOf a))
  end.

(** [makeRange], on two values of [int]; the result is the contents of the
    slice.  The limit [make] puts on the size of an allocation is not
    modelled. *)
Definition makeRange (min max : Z) : list Z :=
  let size := int_add ws (int_sub ws max min) 1 in
  if size <=? 0 then []
  else map (fun i => int_add ws min (Z.of_nat i)) (seq 0 (Z.to_nat size)).

End Operators.

End Operators.

(** ** Predicates of the further properties *)

(** A value of one of the twelve numeric types, in the range of its type. *)
Definition numeric_value (ws : WordSize) (k : reflect.Kind) (d : data)
  : Prop :=
  match d with
  | VInt z => integer_kind k = true /\ in_range ws k z
  | VFloat _ => float_kind k = true
  | _ => False
  end.

(** The integer part of the magnitude of a finite float with mantissa [m] and
    exponent [e]. *)
Definition magnitude_floor (m : positive) (e : Z) : Z :=
  if 0 <=? e then Z.pos m * 2 ^ e else Z.pos m / 2 ^ (- e).

(** The values [fetch] has no access into: nil, the kinds that are neither
    indexed nor keyed, and the pointers that are nil or point to something
    other than a map, a slice or a struct. *)
Definition opaque_to_fetch (from : iface) : bool :=
  match from with
  | None => true
  | Some (t, d) =>
      match Type_Kind t with
      | reflect.Array | reflect.Slice | reflect.String | reflect.Map
      | reflect.Struct => false
      | reflect.Pointer =>
          match d, underlying t with
          | VPtr None, _ => true
          | VPtr (Some _), PointerTo e => negb (follow (Type_Kind e))
          | _, _ => false
          end
      | _ => true
      end
  end.

(** A type whose kind agrees with its form: [Basic] for the predeclared
    scalar types only, and a defined type over such a type. *)
Definition scalar_kind (k : reflect.Kind) : bool :=
  match k with
  | reflect.Invalid | reflect.Array | reflect.Chan | reflect.Func
  | reflect.Interface | reflect.Map | reflect.Pointer | reflect.Slice
  | reflect.Struct => false
  | _ => true
  end.

Definition proper_type (t : rtype) : bool :=
  match underlying t with
  | Basic k => scalar_kind k
  | Named _ _ _ _ => false
  | _ => true
  end.

Definition proper (a : iface) : bool :=
  match a with
  | None => true
  | Some (t, _) => proper_type t
  end.

(** [n] pointers on top of a value: [&v], [&&v], ... *)
Fixpoint point (n : nat) (v : rtype * data) : rtype * data :=
  match n with
  | O => v
  | S n' => let '(t, d) := point n' v in
            (PointerTo t, VPtr (Some (Z.of_nat n, d)))
  end.

(** The scan of [in] over the elements of a slice, as a function of the
    elements: the value of the loop when the elements are not interfaces. *)
Fixpoint scan (equal : iface -> iface -> result iface) (needle : iface)
         (e : rtype) (l : list data) : result bool :=
  match l with
  | [] => Ok false
  | x :: l' =>
      r <- equal (Some (e, x)) needle ;;
      b <- Operators.assert_bool r ;;
      if b then Ok true else scan equal needle e l'
  end.

(** The key a needle of type [nt] is looked up by in a map with keys of type
    [K]: the needle's own value when [nt] is assignable to [K] as it is, the
    needle in an interface when [K] is an interface type that [nt]
    implements. *)
Definition map_key (K nt : rtype) (nd : data) : data :=
  if directlyAssignable K nt then nd else VIface (Some (nt, nd)).

(** ** Sample values

    The concrete hosts and values the properties are run on. *)

(** A platform whose out-of-range float conversions yield 0. *)
Definition no_float_conversion : Z -> spec_float -> Z := fun _ _ => 0.

Definition tint : rtype := Basic reflect.Int.
Definition tstring : rtype := Basic reflect.String.

Definition int (z : Z) : iface := Some (tint, VInt z).
Definition str (s : string) : iface := Some (tstring, VString s).
Definition int8 (z : Z) : iface := Some (Basic reflect.Int8, VInt z).
Definition uint8 (z : Z) : iface := Some (Basic reflect.Uint8, VInt z).
Definition uint64 (z : Z) : iface := Some (Basic reflect.Uint64, VInt z).
Definition float64 (f : spec_float) : iface :=
  Some (Basic reflect.Float64, VFloat f).
Definition bool_ (b : bool) : iface := Some (Basic reflect.Bool, VBool b).

(** A slice of ints, the nil pointer to int, the array [[3]int{1, 2, 3}]. *)
Definition ints (l : list Z) : iface :=
  Some (SliceOf tint, VSlice (Some (map VInt l))).
Definition nil_pointer : iface := Some (PointerTo tint, VPtr None).
Definition array123 : iface :=
  Some (ArrayOf 3 tint, VArray [VInt 1; VInt 2; VInt 3]).
Definition pointer_to_array123 : iface :=
  Some (PointerTo (ArrayOf 3 tint),
        VPtr (Some (12288, VArray [VInt 1; VInt 2; VInt 3]))).

(** [map[string]int{"a": 1}] and a pointer to it. *)
Definition map_string_int : rtype := MapOf tstring tint.
Definition map_a1 : data := VMap (Some [(VString "a", VInt 1)]).
Definition pointer_to_map_a1 : iface :=
  Some (PointerTo map_string_int, VPtr (Some (4096, map_a1))).

(** [map[string]func(){"f": f}], a map whose entries are funcs,
    [map[string]interface{}{"f": f}], the shape of [Scope], and
    [map[int]interface{}{1: f}], a map that has no string keys. *)
Definition tfunc : rtype := FuncOf [] [].
Definition map_of_funcs : iface :=
  Some (MapOf tstring tfunc, VMap (Some [(VString "f", VFunc (Some 7))])).
Definition Scope : rtype :=
  Named "vm.Scope" [] [] (MapOf tstring emptyInterface).
Definition scope_data : data :=
  VMap (Some [(VString "f", VIface (Some (tfunc, VFunc (Some 7))))]).
Definition scope_with_f : iface := Some (Scope, scope_data).
Definition int_keyed_map : iface :=
  Some (MapOf tint emptyInterface,
        VMap (Some [(VInt 1, VIface (Some (tfunc, VFunc (Some 7))))])).
Definition pointer_to_scope : iface :=
  Some (PointerTo Scope, VPtr (Some (20480, scope_data))).

(** [struct { P *int }{P: &five}]: a field that holds a pointer to a
    scalar. *)
Definition tholder : rtype := StructOf [("P"%string, true, PointerTo tint)].
Definition holder : iface :=
  Some (tholder, VStruct [VPtr (Some (8192, VInt 5))]).

(** [struct { Name string; secret int; P *int }], with one field that is not
    exported, and a value of it. *)
Definition trecord : rtype :=
  StructOf [("Name"%string, true, tstring);
            ("secret"%string, false, tint);
            ("P"%string, true, PointerTo tint)].
Definition record_data : data :=
  VStruct [VString "go"; VInt 42; VPtr (Some (8192, VInt 5))].
Definition record : iface := Some (trecord, record_data).
Definition pointer_to_record : iface :=
  Some (PointerTo trecord, VPtr (Some (16384, record_data))).

(** A slice of pointers to int, one of them nil: [[]*int{&five, nil}]; a
    slice of pointers to uintptr. *)
Definition int_pointers : iface :=
  Some (SliceOf (PointerTo tint),
        VSlice (Some [VPtr (Some (8192, VInt 5)); VPtr None])).
Definition uintptr_pointers : iface :=
  Some (SliceOf (PointerTo (Basic reflect.Uintptr)),
        VSlice (Some [VPtr (Some (8192, VInt 5))])).

(** An [equal] for the samples: equality of ints, false on anything else. *)
Definition equal_ints : iface -> iface -> result iface :=
  fun a b =>
    match a, b with
    | Some (Basic reflect.Int, VInt x), Some (Basic reflect.Int, VInt y) =>
        Ok (bool_ (x =? y))
    | _, _ => Ok (bool_ false)
    end.

(** A host type with the custom accessor: [type Env map[string]int] with a
    method [Fetch], and a value of it that has the key ["a"]. *)
Definition Env : rtype :=
  Named "main.Env"
        [("Fetch"%string, FuncOf [emptyInterface] [emptyInterface])] []
        (MapOf tstring tint).

Definition env_data : data := VMap (Some [(VString "a", VInt 1)]).
Definition env : iface := Some (Env, env_data).

(** A host type whose [Fetch] has a pointer receiver:
    [type Account struct { Name string }] with
    [func (a *Account) Fetch(interface{}) interface{}], a value of it and a
    pointer to the value. *)
Definition Account : rtype :=
  Named "main.Account" []
        [("Fetch"%string, FuncOf [emptyInterface] [emptyInterface])]
        (StructOf [("Name"%string, true, tstring)]).
Definition account_data : data := VStruct [VString "go"].
Definition account : iface := Some (Account, account_data).
Definition pointer_to_account : iface :=
  Some (PointerTo Account, VPtr (Some (24576, account_data))).

(** Two hosts: one whose [Fetch] finds nothing, one whose [Fetch] answers 42
    to every key. *)
Definition Fetch_nothing : rtype -> data -> iface -> result iface :=
  fun _ _ _ => Ok None.
Definition Fetch_42 : rtype -> data -> iface -> result iface :=
  fun _ _ _ => Ok (int 42).

(** * Properties *)

(** ** Wrap-around arithmetic *)

Section Wrap.

Variable w : Z.
Hypothesis w_pos : 0 < w.

Lemma pow2_split : 2 ^ w = 2 * 2 ^ (w - 1).
Proof.
  replace w with (Z.succ (w - 1)) at 1 by lia.
  apply Z.pow_succ_r. lia.
Qed.

Lemma half_pos : 0 < 2 ^ (w - 1).
Proof. apply Z.pow_pos_nonneg; lia. Qed.

Lemma wrap_signed_range z : min_int w <= wrap_signed w z <= max_int w.
Proof.
  unfold wrap_signed, min_int, max_int.
  pose proof half_pos. pose proof pow2_split.
  pose proof (Z.mod_pos_bound (z + 2 ^ (w - 1)) (2 ^ w)). lia.
Qed.

Lemma wrap_signed_small z :
  min_int w <= z <= max_int w -> wrap_signed w z = z.
Proof.
  unfold wrap_signed, min_int, max_int. intros Hz.
  pose proof pow2_split.
  rewrite Z.mod_small by lia. lia.
Qed.

(** The wrapped value differs from the exact one by a multiple of [2^w]. *)
Lemma wrap_signed_congruent z : (wrap_signed w z) mod 2 ^ w = z mod 2 ^ w.
Proof.
  unfold wrap_signed. pose proof half_pos. pose proof pow2_split.
  rewrite Zminus_mod, Z.mod_mod by lia.
  rewrite <- Zminus_mod. f_equal. lia.
Qed.

Lemma wrap_signed_high z :
  2 ^ (w - 1) <= z < 2 ^ w -> wrap_signed w z = z - 2 ^ w.
Proof.
  unfold wrap_signed. intros Hz. pose proof pow2_split.
  replace (z + 2 ^ (w - 1)) with (z - 2 ^ (w - 1) + 1 * 2 ^ w) by lia.
  rewrite Z.mod_add by lia.
  rewrite Z.mod_small by lia. lia.
Qed.

(** Negation in [w] bits: exact, but for the least value, which is its own
    negative. *)
Lemma wrap_signed_opp z :
  min_int w <= z <= max_int w ->
  wrap_signed w (- z) = if z =? min_int w then z else - z.
Proof.
  intros Hz. destruct (Z.eqb_spec z (min_int w)) as [-> | Hne].
  - unfold min_int. rewrite Z.opp_involutive.
    pose proof half_pos. pose proof pow2_split.
    rewrite wrap_signed_high; lia.
  - apply wrap_signed_small. unfold min_int, max_int in *. lia.
Qed.

Lemma wrap_unsigned_range z : 0 <= wrap_unsigned w z <= max_uint w.
Proof.
  unfold wrap_unsigned, max_uint.
  pose proof half_pos. pose proof pow2_split.
  pose proof (Z.mod_pos_bound z (2 ^ w)). lia.
Qed.

(** The negative of an unsigned value is its additive inverse modulo
    [2^w]. *)
Lemma wrap_unsigned_opp_inverse z :
  (z + wrap_unsigned w (- z)) mod 2 ^ w = 0.
Proof.
  unfold wrap_unsigned. pose proof half_pos. pose proof pow2_split.
  rewrite Zplus_mod_idemp_r. replace (z + - z) with 0 by lia.
  apply Z.mod_0_l. lia.
Qed.

Lemma wrap_unsigned_opp z :
  0 <= z <= max_uint w ->
  wrap_unsigned w (- z) = if z =? 0 then 0 else 2 ^ w - z.
Proof.
  unfold wrap_unsigned, max_uint. intros Hz.
  pose proof half_pos. pose proof pow2_split.
  destruct (Z.eqb_spec z 0) as [-> | Hne].
  - apply Z.mod_0_l. lia.
  - replace (- z) with (2 ^ w - z + (-1) * 2 ^ w) by lia.
    rewrite Z.mod_add by lia. apply Z.mod_small. lia.
Qed.

End Wrap.

Lemma kind_bits_pos ws k : 0 < kind_bits ws k.
Proof. destruct ws, k; reflexivity. Qed.

Lemma word_bits_pos ws : 0 < word_bits ws.
Proof. destruct ws; reflexivity. Qed.

(** ** Numeric coercion *)

Lemma toInt_integer ws fu k z :
  integer_kind k = true -> in_range ws k z ->
  toInt ws fu (Some (Basic k, VInt z)) = Ok (wrap_signed (word_bits ws) z).
Proof.
  intros Hk Hz.
  destruct k; try discriminate Hk; try reflexivity.
  cbn [toInt]. f_equal. symmetry.
  apply wrap_signed_small; [apply word_bits_pos | exact Hz].
Qed.

Lemma toInt64_integer ws fu k z :
  integer_kind k = true -> in_range ws k z ->
  toInt64 fu (Some (Basic k, VInt z)) = Ok (wrap_signed 64 z).
Proof.
  intros Hk Hz.
  destruct k; try discriminate Hk; try reflexivity.
  cbn [toInt64]. f_equal. symmetry.
  apply wrap_signed_small; [lia | exact Hz].
Qed.

(** C10: [toInt] and [toInt64] return on every value of the ten integer types
    of their switches, whatever its magnitude: the result is the value
    reduced modulo [2^w] into the signed range of the destination, [w] the
    width of [int], resp. 64; no input is rejected and none saturates.  A
    [uint64] of at least [2^63] becomes the negative [z - 2^64] under
    [toInt64]. *)
Theorem toInt_toInt64_wrap ws fu k z :
  integer_kind k = true -> in_range ws k z ->
  let v := Some (Basic k, VInt z) in
  let W := word_bits ws in
  (toInt ws fu v = Ok (wrap_signed W z)
   /\ min_int W <= wrap_signed W z <= max_int W
   /\ wrap_signed W z mod 2 ^ W = z mod 2 ^ W)
  /\ (toInt64 fu v = Ok (wrap_signed 64 z)
      /\ min_int 64 <= wrap_signed 64 z <= max_int 64
      /\ wrap_signed 64 z mod 2 ^ 64 = z mod 2 ^ 64)
  /\ (k = reflect.Uint64 -> 2 ^ 63 <= z ->
      toInt64 fu v = Ok (z - 2 ^ 64) /\ z - 2 ^ 64 < 0).
Proof.
  intros Hk Hz v W. subst v W.
  pose proof (word_bits_pos ws) as HW.
  repeat split.
  - apply toInt_integer; assumption.
  - apply wrap_signed_range; assumption.
  - apply wrap_signed_range; assumption.
  - apply wrap_signed_congruent; assumption.
  - eapply toInt64_integer; eassumption.
  - apply wrap_signed_range; lia.
  - apply wrap_signed_range; lia.
  - apply wrap_signed_congruent; lia.
  - subst k. cbn [toInt64]. f_equal.
    apply wrap_signed_high; [lia|].
    unfold in_range, max_uint in Hz. cbn in Hz. cbn. lia.
  - subst k. unfold in_range, max_uint in Hz. cbn in Hz. lia.
Qed.

Lemma toInt_toInt64_wrap_witness :
  toInt64 no_float_conversion
          (Some (Basic reflect.Uint64, VInt (2 ^ 63 + 5)))
  = Ok (5 - 2 ^ 63).
Proof.
  pose proof (toInt_toInt64_wrap W64 no_float_conversion reflect.Uint64
                (2 ^ 63 + 5) eq_refl) as H.
  destruct H as (_ & _ & H).
  - unfold in_range, max_uint. cbn. lia.
  - destruct (H eq_refl) as [E _]; [lia|].
    rewrite E. f_equal.
Defined.

(** ** Negation *)

Lemma negate_signed ws k v :
  signed_kind k = true -> in_range ws k v ->
  negate ws (Some (Basic k, VInt v))
  = Ok (Some (Basic k,
              VInt (if v =? min_int (kind_bits ws k) then v else - v))).
Proof.
  intros Hk Hv. unfold in_range in Hv. rewrite Hk in Hv.
  rewrite <- (wrap_signed_opp _ (kind_bits_pos ws k) v Hv).
  destruct k; try discriminate Hk; reflexivity.
Qed.

Lemma negate_unsigned ws k v :
  unsigned_kind k = true ->
  negate ws (Some (Basic k, VInt v))
  = Ok (Some (Basic k, VInt (wrap_unsigned (kind_bits ws k) (- v)))).
Proof.
  intros Hk. destruct k; try discriminate Hk; reflexivity.
Qed.

Lemma negate_float ws k f :
  float_kind k = true ->
  negate ws (Some (Basic k, VFloat f)) = Ok (Some (Basic k, VFloat (SFopp f))).
Proof.
  intros Hk. destruct k; try discriminate Hk; reflexivity.
Qed.

Lemma negate_non_numeric ws i :
  numeric (TypeOf i) = false ->
  negate ws i = Panic (InvalidOperation "- %T" (TypeOf i)).
Proof.
  destruct i as [[t d]|]; [|reflexivity].
  destruct t; try reflexivity.
  destruct k; cbn; intros H; try discriminate H; reflexivity.
Qed.

(** C5, as the code has it: on the five signed integer types [negate]
    returns the negative in the same type for every value but the least one
    of the width, which it returns unchanged (two's-complement wrap-around);
    on the two float types it returns the float with the sign flipped; on the
    five unsigned types it returns, in the same type and without failing, the
    additive inverse modulo [2^w], so that [negate(uint8(1)) = uint8(255)];
    on every value of another type, and on nil, it panics. *)
Theorem negate_spec ws :
  (forall k v, signed_kind k = true -> in_range ws k v ->
     negate ws (Some (Basic k, VInt v))
     = Ok (Some (Basic k,
                 VInt (if v =? min_int (kind_bits ws k) then v else - v))))
  /\ (forall k f, float_kind k = true ->
        negate ws (Some (Basic k, VFloat f))
        = Ok (Some (Basic k, VFloat (SFopp f))))
  /\ (forall k v, unsigned_kind k = true -> in_range ws k v ->
        exists r,
          negate ws (Some (Basic k, VInt v)) = Ok (Some (Basic k, VInt r))
          /\ in_range ws k r
          /\ (v + r) mod 2 ^ kind_bits ws k = 0)
  /\ negate ws (uint8 1) = Ok (uint8 255)
  /\ (forall i, numeric (TypeOf i) = false ->
        negate ws i = Panic (InvalidOperation "- %T" (TypeOf i))).
Proof.
  split; [|split; [|split; [|split]]].
  - apply negate_signed.
  - apply negate_float.
  - intros k v Hk Hv.
    exists (wrap_unsigned (kind_bits ws k) (- v)). split; [|split].
    + apply negate_unsigned; assumption.
    + unfold in_range.
      replace (signed_kind k) with false by (destruct k; try discriminate Hk; reflexivity).
      apply wrap_unsigned_range, kind_bits_pos.
    + apply wrap_unsigned_opp_inverse, kind_bits_pos.
  - reflexivity.
  - apply negate_non_numeric.
Qed.

Lemma negate_spec_witness :
  negate W64 (int8 (-128)) = Ok (int8 (-128))
  /\ negate W64 (int8 5) = Ok (int8 (-5))
  /\ negate W64 (float64 (S754_finite false 3 0))
     = Ok (float64 (S754_finite true 3 0))
  /\ negate W64 (str "a") = Panic (InvalidOperation "- %T" (Some tstring)).
Proof.
  destruct (negate_spec W64) as (Hs & Hf & _ & _ & Hn).
  split; [|split; [|split]].
  - apply (Hs reflect.Int8 (-128) eq_refl).
    unfold in_range, min_int, max_int. cbn. lia.
  - apply (Hs reflect.Int8 5 eq_refl).
    unfold in_range, min_int, max_int. cbn. lia.
  - apply (Hf reflect.Float64 (S754_finite false 3 0) eq_refl).
  - apply (Hn (str "a") eq_refl).
Defined.

(** C5 fails as stated at the least [int8]: the arithmetic negative of -128
    is 128, and [negate] returns -128. *)
Lemma negate_min_int8_counterexample :
  in_range W64 reflect.Int8 (-128)
  /\ negate W64 (int8 (-128)) = Ok (int8 (-128))
  /\ negate W64 (int8 (-128)) <> Ok (int8 (- (-128))).
Proof.
  split; [|split].
  - unfold in_range, min_int, max_int. cbn. lia.
  - reflexivity.
  - cbn. discriminate.
Qed.

(** ** Nil policy *)

(** C8: [isNil v] is true exactly when [v] is the absent value or a value of
    pointer, channel, map, slice or func kind whose binding is nil, and false
    for every other value: for the integer 0, the empty string, the boolean
    false and an empty slice that is not nil in particular (and for arrays,
    structs and the other scalars). *)
Theorem isNil_spec :
  (forall v, well_formed v = true -> isNil v = Ok (absent_or_nil v))
  /\ isNil None = Ok true
  /\ isNil nil_pointer = Ok true
  /\ isNil (int 0) = Ok false
  /\ isNil (str "") = Ok false
  /\ isNil (bool_ false) = Ok false
  /\ isNil (ints []) = Ok false.
Proof.
  split; [|repeat split].
  intros [[t d]|] Hwf; [|reflexivity].
  cbn [well_formed] in Hwf. unfold repr_ok in Hwf.
  cbn [isNil ValueOf Value_Kind absent_or_nil Value_IsNil].
  destruct (Type_Kind t), d; try discriminate Hwf; try reflexivity;
    match goal with
    | |- context [match ?o with Some _ => _ | None => _ end] =>
        destruct o as [[]|]; reflexivity
    | |- context [match ?o with Some _ => _ | None => _ end] =>
        destruct o; reflexivity
    end.
Qed.

Lemma isNil_spec_witness :
  isNil (Some (MapOf tstring tint, VMap None)) = Ok true
  /\ isNil array123 = Ok false.
Proof.
  destruct isNil_spec as [H _].
  split.
  - apply (H (Some (MapOf tstring tint, VMap None)) eq_refl).
  - apply (H array123 eq_refl).
Defined.

(** ** The custom accessor *)

Lemma assert_Fetcher_implements t d :
  implements Fetcher t = true -> assert_Fetcher (Some (t, d)) = Some (t, d).
Proof. intros H. unfold assert_Fetcher. rewrite H. reflexivity. Qed.

Lemma fetch_Fetcher ws fu Fetch t d key nilsafe :
  implements Fetcher t = true ->
  fetch ws fu Fetch (Some (t, d)) key nilsafe
  = (value <- Fetch t d key ;;
     match value with
     | Some x => Ok (Some x)
     | None =>
         if nilsafe then Ok None else Panic (CannotFetch key (Some t))
     end).
Proof.
  intros H. unfold fetch.
  rewrite (assert_Fetcher_implements t d H).
  destruct (Fetch t d key) as [[x|]|p]; cbn [bind]; try reflexivity.
  destruct nilsafe; reflexivity.
Qed.

(** C2: on a container whose type has the [Fetch] method, [fetch] is the
    method's answer and nothing else: what [Fetch] finds is returned as it is,
    nil becomes the absent value when [nilsafe] is set and the panic
    "cannot fetch" otherwise, and a panic of [Fetch] is the panic of [fetch];
    the representation of the container is never looked at. *)
Theorem fetch_custom_accessor ws fu Fetch t d key nilsafe :
  implements Fetcher t = true ->
  (forall x, Fetch t d key = Ok (Some x) ->
     fetch ws fu Fetch (Some (t, d)) key nilsafe = Ok (Some x))
  /\ (Fetch t d key = Ok None ->
      fetch ws fu Fetch (Some (t, d)) key nilsafe
      = if nilsafe then Ok None else Panic (CannotFetch key (Some t)))
  /\ (forall p, Fetch t d key = Panic p ->
        fetch ws fu Fetch (Some (t, d)) key nilsafe = Panic p)
  /\ (forall d', fetch ws fu (fun _ _ => Fetch t d) (Some (t, d')) key nilsafe
                 = fetch ws fu Fetch (Some (t, d)) key nilsafe).
Proof.
  intros H. repeat split.
  - intros x E. rewrite fetch_Fetcher, E by assumption. reflexivity.
  - intros E. rewrite fetch_Fetcher, E by assumption. reflexivity.
  - intros p E. rewrite fetch_Fetcher, E by assumption. reflexivity.
  - intros d'. rewrite !fetch_Fetcher by assumption. reflexivity.
Qed.

(** The map under [env] has the key ["a"], and [fetch] does not read it. *)
Lemma fetch_custom_accessor_witness :
  fetch W64 no_float_conversion Fetch_42 env (str "a") false = Ok (int 42)
  /\ fetch W64 no_float_conversion Fetch_nothing env (str "a") true = Ok None
  /\ fetch W64 no_float_conversion Fetch_nothing env (str "a") false
     = Panic (CannotFetch (str "a") (Some Env)).
Proof.
  split; [|split].
  - apply (fetch_custom_accessor W64 no_float_conversion Fetch_42
             Env env_data (str "a") false eq_refl); reflexivity.
  - apply (fetch_custom_accessor W64 no_float_conversion Fetch_nothing
             Env env_data (str "a") true eq_refl); reflexivity.
  - apply (fetch_custom_accessor W64 no_float_conversion Fetch_nothing
             Env env_data (str "a") false eq_refl); reflexivity.
Defined.

(** C9: a nil answer of [Fetch] is "not found", whatever the host meant by
    it: [fetch] then panics without [nilsafe] and returns the absent value
    with it, and two hosts that both answer nil cannot be told apart; an
    answer that is not nil is returned with no further check. *)
Theorem fetch_accessor_nil_is_not_found ws fu Fetch t d key :
  implements Fetcher t = true ->
  (Fetch t d key = Ok None ->
   fetch ws fu Fetch (Some (t, d)) key false
   = Panic (CannotFetch key (Some t))
   /\ fetch ws fu Fetch (Some (t, d)) key true = Ok None
   /\ forall Fetch' nilsafe,
       Fetch' t d key = Ok None ->
       fetch ws fu Fetch' (Some (t, d)) key nilsafe
       = fetch ws fu Fetch (Some (t, d)) key nilsafe)
  /\ (forall x nilsafe,
        Fetch t d key = Ok (Some x) ->
        fetch ws fu Fetch (Some (t, d)) key nilsafe = Ok (Some x)).
Proof.
  intros H. split.
  - intros E. repeat split.
    + rewrite fetch_Fetcher, E by assumption. reflexivity.
    + rewrite fetch_Fetcher, E by assumption. reflexivity.
    + intros Fetch' nilsafe E'.
      rewrite !fetch_Fetcher, E, E' by assumption. reflexivity.
  - intros x nilsafe E.
    rewrite fetch_Fetcher, E by assumption. reflexivity.
Qed.

Lemma fetch_accessor_nil_is_not_found_witness :
  fetch W64 no_float_conversion Fetch_nothing env (str "a") false
  = Panic (CannotFetch (str "a") (Some Env))
  /\ fetch W64 no_float_conversion Fetch_nothing env (str "a") true = Ok None
  /\ fetch W64 no_float_conversion Fetch_42 env (str "b") true = Ok (int 42).
Proof.
  destruct (fetch_accessor_nil_is_not_found W64 no_float_conversion
              Fetch_nothing Env env_data (str "a") eq_refl) as [Hnil _].
  destruct (Hnil eq_refl) as (Hf & Ht & _).
  destruct (fetch_accessor_nil_is_not_found W64 no_float_conversion
              Fetch_42 Env env_data (str "b") eq_refl) as [_ Hsome].
  split; [exact Hf | split; [exact Ht |]].
  apply (Hsome _ true eq_refl).
Defined.

(** ** Maps *)

Lemma underlying_kind t u : underlying t = u -> Type_Kind t = Type_Kind u.
Proof. intros <-. destruct t; reflexivity. Qed.

Lemma MapIndex_flags t m ro addr key :
  Value_MapIndex (Val t (VMap m) ro addr) key = Ok NoValue ->
  forall ro' addr',
    Value_MapIndex (Val t (VMap m) ro' addr') key = Ok NoValue.
Proof.
  unfold Value_MapIndex. intros H ro' addr'.
  destruct (Type_Kind t); try discriminate H.
  destruct (underlying t); try discriminate H.
  destruct (assign_key _ key) as [k|p]; cbn [bind] in *; [|discriminate H].
  destruct (map_lookup k _); [discriminate H | reflexivity].
Qed.

(** A map passed directly: a key that is absent yields the zero value of the
    element type of the map, with and without [nilsafe]. *)
Lemma fetch_map_missing_key ws fu Fetch t K V m key nilsafe :
  underlying t = MapOf K V ->
  assert_Fetcher (Some (t, VMap m)) = None ->
  key_absent t m key ->
  fetch ws fu Fetch (Some (t, VMap m)) key nilsafe = Value_Interface (Zero V).
Proof.
  intros Hu Hf Habs. unfold fetch. rewrite Hf.
  pose proof (underlying_kind t _ Hu) as K'. cbn in K'.
  cbn [ValueOf Value_Kind]. rewrite K'. cbn [reflect.Kind_eqb bind].
  cbn [Value_Kind]. rewrite K'.
  unfold key_absent in Habs. rewrite Habs. cbn [bind Value_IsValid].
  cbn [TypeOf option_map fst Type_Elem]. rewrite Hu. reflexivity.
Qed.

(** C1, on the code: a map reached through a pointer.  The zero value is
    taken at [reflect.TypeOf(from).Elem()], and [from] is the pointer: a key
    that is absent yields the nil map of the type of the map, not the zero
    value of its element type. *)
Theorem fetch_pointer_to_map_missing_key
        ws fu Fetch pt t K V a m key nilsafe :
  underlying pt = PointerTo t ->
  underlying t = MapOf K V ->
  assert_Fetcher (Some (pt, VPtr (Some (a, VMap m)))) = None ->
  key_absent t m key ->
  fetch ws fu Fetch (Some (pt, VPtr (Some (a, VMap m)))) key nilsafe
  = Ok (Some (t, VMap None)).
Proof.
  intros Hp Hu Hf Habs. unfold fetch. rewrite Hf.
  pose proof (underlying_kind pt _ Hp) as Kp. cbn in Kp.
  pose proof (underlying_kind t _ Hu) as Kt. cbn in Kt.
  cbn [ValueOf Value_Kind]. rewrite Kp. cbn [reflect.Kind_eqb].
  unfold Indirect. cbn [Value_Kind]. rewrite Kp.
  unfold Value_Elem. rewrite Kp, Hp. cbn [bind Value_Kind]. rewrite Kt.
  cbn [follow bind Value_Kind]. rewrite Kt.
  rewrite (MapIndex_flags _ _ _ _ _ Habs). cbn [bind Value_IsValid].
  cbn [TypeOf option_map fst Type_Elem]. rewrite Hp. cbn [bind].
  unfold Zero, Value_Interface. rewrite Kt.
  destruct t; try discriminate Hu; cbn in Hu; subst; reflexivity.
Qed.

(** [fetch(&map[string]int{"a": 1}, "b", nilsafe)] is [map[string]int(nil)],
    where the map itself yields [int(0)]. *)
Lemma fetch_pointer_to_map_missing_key_witness :
  fetch W64 no_float_conversion Fetch_nothing pointer_to_map_a1 (str "b") false
  = Ok (Some (map_string_int, VMap None))
  /\ fetch W64 no_float_conversion Fetch_nothing
           (Some (map_string_int, map_a1)) (str "b") false
     = Ok (int 0).
Proof.
  split.
  - apply (fetch_pointer_to_map_missing_key W64 no_float_conversion
             Fetch_nothing (PointerTo map_string_int) map_string_int
             tstring tint 4096 (Some [(VString "a", VInt 1)]) (str "b") false);
      reflexivity.
  - reflexivity.
Defined.

(** ** Indexing *)

Lemma Index_out_of_range t d len n :
  indexable (Type_Kind t) = true ->
  Value_Len (Val t d false false) = Ok len ->
  n < 0 \/ len <= n ->
  Value_Index (Val t d false false) n
  = Panic (ReflectPanic (index_out_of_range (Type_Kind t))).
Proof.
  intros Hk Hlen Hn. unfold Value_Len in Hlen. unfold Value_Index.
  assert (Hb : forall l, l = len -> (n <? 0) || (l <=? n) = true).
  { intros l ->. apply orb_true_iff. rewrite Z.ltb_lt, Z.leb_le. exact Hn. }
  destruct (Type_Kind t); try discriminate Hk; cbn [index_out_of_range].
  - destruct d; try discriminate Hlen.
    destruct (underlying t); try discriminate Hlen.
    injection Hlen as Hlen. rewrite (Hb _ Hlen). reflexivity.
  - destruct d; try discriminate Hlen.
    destruct elems as [l|], (underlying t); try discriminate Hlen;
      injection Hlen as Hlen; cbn [List.length Z.of_nat];
      rewrite (Hb _ Hlen); reflexivity.
  - destruct d; try discriminate Hlen.
    injection Hlen as Hlen. rewrite (Hb _ Hlen). reflexivity.
Qed.

(** C7, as the code has it: on an array, slice or string without the custom
    accessor, a key whose integer [toInt] gives is negative or not below the
    length makes [fetch] panic, with and without [nilsafe]: the index is not
    clamped.  The panic is the one of [reflect.Value.Index], which names the
    kind of the container and neither [fetch] nor the key. *)
Theorem fetch_index_out_of_range ws fu Fetch t d key n len nilsafe :
  indexable (Type_Kind t) = true ->
  assert_Fetcher (Some (t, d)) = None ->
  Value_Len (Val t d false false) = Ok len ->
  toInt ws fu key = Ok n ->
  n < 0 \/ len <= n ->
  fetch ws fu Fetch (Some (t, d)) key nilsafe
  = Panic (ReflectPanic (index_out_of_range (Type_Kind t))).
Proof.
  intros Hk Hf Hlen Hkey Hn. unfold fetch. rewrite Hf.
  pose proof (Index_out_of_range t d len n Hk Hlen Hn) as Hidx.
  cbn [ValueOf Value_Kind].
  destruct (Type_Kind t) eqn:K; try discriminate Hk;
    cbn [reflect.Kind_eqb bind Value_Kind]; rewrite K, Hkey; cbn [bind];
    rewrite Hidx; reflexivity.
Qed.

Lemma fetch_index_out_of_range_witness :
  fetch W64 no_float_conversion Fetch_nothing (ints [1; 2; 3]) (int 3) true
  = Panic (ReflectPanic "reflect: slice index out of range")
  /\ fetch W64 no_float_conversion Fetch_nothing (str "abc") (int (-1)) false
     = Panic (ReflectPanic "reflect: string index out of range")
  /\ fetch W64 no_float_conversion Fetch_nothing array123 (uint8 200) true
     = Panic (ReflectPanic "reflect: array index out of range").
Proof.
  split; [|split].
  - apply (fetch_index_out_of_range W64 no_float_conversion Fetch_nothing
             (SliceOf tint) (VSlice (Some (map VInt [1; 2; 3]))) (int 3)
             3 3 true); try reflexivity. lia.
  - apply (fetch_index_out_of_range W64 no_float_conversion Fetch_nothing
             tstring (VString "abc") (int (-1)) (-1) 3 false);
      try reflexivity. lia.
  - apply (fetch_index_out_of_range W64 no_float_conversion Fetch_nothing
             (ArrayOf 3 tint) (VArray [VInt 1; VInt 2; VInt 3]) (uint8 200)
             200 3 true); try reflexivity. lia.
Defined.

(** C7 fails as stated at [fetch([]int{1, 2, 3}, 5, false)]: the panic is
    not the "cannot fetch" of [fetch], which carries the key and the type of
    the container, but reflect's, which carries neither. *)
Lemma fetch_index_out_of_range_counterexample :
  fetch W64 no_float_conversion Fetch_nothing (ints [1; 2; 3]) (int 5) false
  = Panic (ReflectPanic "reflect: slice index out of range")
  /\ fetch W64 no_float_conversion Fetch_nothing (ints [1; 2; 3]) (int 5) false
     <> Panic (CannotFetch (int 5) (TypeOf (ints [1; 2; 3]))).
Proof.
  split; [reflexivity|]. cbn. discriminate.
Qed.

(** ** Slicing *)

Lemma slice_eq ws fu (array from to : iface) :
  slice ws fu array from to =
  let v := ValueOf array in
  match Value_Kind v with
  | reflect.Array | reflect.Slice | reflect.String =>
      slice_clamped ws fu v from to
  | reflect.Ptr =>
      value <- Value_Elem v ;;
      ok <- (if Value_IsValid value then Value_CanInterface value
             else Ok false) ;;
      if ok then i <- Value_Interface value ;; slice ws fu i from to
      else Panic (CannotSlice from)
  | _ => Panic (CannotSlice from)
  end.
Proof.
  destruct array as [[t d]|]; [|reflexivity].
  cbn [slice ValueOf Value_Kind].
  destruct d; cbn [slice_at]; destruct (Type_Kind t) eqn:K; try reflexivity;
    unfold Value_Elem; rewrite K; try reflexivity.
  destruct p as [[a d']|]; [|reflexivity].
  destruct (underlying t); try reflexivity.
  cbn [bind Value_IsValid Value_CanInterface flagRO negb Value_Interface].
  destruct (Type_Kind r), d'; try reflexivity;
    match goal with |- context [VIface ?i] => destruct i as [[? ?]|] end;
    reflexivity.
Qed.

Lemma clamp_bounds len a b :
  0 <= len -> 0 <= a -> 0 <= b ->
  0 <= clamp_from (clamp_to len b) a <= clamp_to len b
  /\ clamp_to len b <= len.
Proof.
  unfold clamp_from, clamp_to. intros.
  destruct (Z.gtb_spec b len), (Z.gtb_spec a len), (Z.gtb_spec a b); lia.
Qed.

Lemma sub_list_length {A} (l : list A) a b :
  0 <= a <= b -> b <= Z.of_nat (List.length l) ->
  Z.of_nat (List.length (sub_list a b l)) = b - a.
Proof.
  intros Hab Hb. unfold sub_list.
  rewrite length_firstn, length_skipn. lia.
Qed.

Lemma sub_list_nth {A} (l : list A) a b k :
  0 <= a <= b -> (k < Z.to_nat (b - a))%nat ->
  nth_error (sub_list a b l) k = nth_error l (Z.to_nat a + k).
Proof.
  intros Hab Hk. unfold sub_list.
  rewrite nth_error_firstn.
  destruct (Nat.ltb_spec k (Z.to_nat (b - a))); [|lia].
  apply nth_error_skipn.
Qed.

Lemma sub_list_all {A} (l : list A) :
  sub_list 0 (Z.of_nat (List.length l)) l = l.
Proof.
  unfold sub_list. rewrite Z.sub_0_r, Nat2Z.id. cbn [Z.to_nat skipn].
  apply firstn_all.
Qed.

Lemma sub_list_empty {A} (l : list A) b : sub_list b b l = [].
Proof. unfold sub_list. rewrite Z.sub_diag. reflexivity. Qed.

(** [slice] on a slice: both bounds clamped, never a panic. *)
Lemma slice_of_slice ws fu t e s from to a b :
  underlying t = SliceOf e ->
  toInt ws fu from = Ok a -> toInt ws fu to = Ok b ->
  0 <= a -> 0 <= b ->
  let l := match s with Some l => l | None => [] end in
  let j := clamp_to (Z.of_nat (List.length l)) b in
  let i := clamp_from j a in
  slice ws fu (Some (t, VSlice s)) from to
  = Ok (Some (t, VSlice (option_map (sub_list i j) s))).
Proof.
  intros Hu Ha Hb Ha0 Hb0 l j i.
  pose proof (underlying_kind t _ Hu) as K. cbn in K.
  rewrite slice_eq. cbn [ValueOf Value_Kind]. rewrite K.
  unfold slice_clamped, Value_Len. rewrite K, Hu.
  replace (match s with
           | Some l0 => Ok (Z.of_nat (Datatypes.length l0))
           | None => Ok 0
           end) with (@Ok Z (Z.of_nat (List.length l)))
    by (destruct s; reflexivity).
  cbn [bind]. rewrite Ha, Hb. cbn [bind].
  fold (clamp_to (Z.of_nat (List.length l)) b). fold j.
  fold (clamp_from j a). fold i.
  destruct (clamp_bounds (Z.of_nat (List.length l)) a b) as [Hi Hj];
    try lia. fold j in Hi, Hj. fold i in Hi.
  unfold Value_Slice. rewrite K. fold l.
  replace ((i <? 0) || (j <? i) || (Z.of_nat (List.length l) <? j))
    with false.
  2:{ symmetry. rewrite !orb_false_iff, !Z.ltb_ge. lia. }
  cbn [bind Value_IsValid Value_CanInterface flagRO negb Value_Interface].
  rewrite K. reflexivity.
Qed.

Lemma substring_length s : forall n m,
  (n + m <= String.length s)%nat -> String.length (substring n m s) = m.
Proof.
  induction s as [|c s IH]; intros [|n] [|m] H; cbn in *;
    try reflexivity; try lia.
  - f_equal. apply (IH 0%nat). lia.
  - apply (IH n 0%nat). lia.
  - apply (IH n (S m)). lia.
Qed.

Lemma substring_all s : substring 0 (String.length s) s = s.
Proof. induction s as [|c s IH]; cbn; [|rewrite IH]; reflexivity. Qed.

Lemma substring_empty s : forall n, substring n 0 s = EmptyString.
Proof. induction s as [|c s IH]; intros [|n]; cbn; auto. Qed.

(** [slice] on a string: the same clamps, on its bytes. *)
Lemma slice_of_string ws fu t s from to a b :
  Type_Kind t = reflect.String ->
  toInt ws fu from = Ok a -> toInt ws fu to = Ok b ->
  0 <= a -> 0 <= b ->
  let j := clamp_to (Z.of_nat (String.length s)) b in
  let i := clamp_from j a in
  slice ws fu (Some (t, VString s)) from to
  = Ok (Some (t, VString (sub_string i j s))).
Proof.
  intros K Ha Hb Ha0 Hb0 j i.
  rewrite slice_eq. cbn [ValueOf Value_Kind]. rewrite K.
  unfold slice_clamped, Value_Len. rewrite K.
  cbn [bind]. rewrite Ha, Hb. cbn [bind].
  fold (clamp_to (Z.of_nat (String.length s)) b). fold j.
  fold (clamp_from j a). fold i.
  destruct (clamp_bounds (Z.of_nat (String.length s)) a b) as [Hi Hj];
    try lia. fold j in Hi, Hj. fold i in Hi.
  unfold Value_Slice. rewrite K.
  replace ((i <? 0) || (j <? i) || (Z.of_nat (String.length s) <? j))
    with false.
  2:{ symmetry. rewrite !orb_false_iff, !Z.ltb_ge. lia. }
  cbn [bind Value_IsValid Value_CanInterface flagRO negb Value_Interface].
  rewrite K. reflexivity.
Qed.

(** What the clamps give on a slice, in the three cases the specification
    names: within the bounds the result is [S[i:j]], of length [j - i] and
    with the elements of [S] from [i] on; a high bound beyond the length
    gives all of [S] from 0; a low bound beyond the clamped high bound gives
    the empty slice. *)
Lemma slice_of_slice_cases ws fu t e l from to a b :
  underlying t = SliceOf e ->
  toInt ws fu from = Ok a -> toInt ws fu to = Ok b ->
  0 <= a -> 0 <= b ->
  let len := Z.of_nat (List.length l) in
  (a <= b <= len ->
   exists r,
     slice ws fu (Some (t, VSlice (Some l))) from to
     = Ok (Some (t, VSlice (Some r)))
     /\ Z.of_nat (List.length r) = b - a
     /\ forall k, (k < Z.to_nat (b - a))%nat ->
                  nth_error r k = nth_error l (Z.to_nat a + k))
  /\ (a = 0 -> len < b ->
      slice ws fu (Some (t, VSlice (Some l))) from to
      = Ok (Some (t, VSlice (Some l))))
  /\ (clamp_to len b < a ->
      slice ws fu (Some (t, VSlice (Some l))) from to
      = Ok (Some (t, VSlice (Some [])))).
Proof.
  intros Hu Ha Hb Ha0 Hb0 len.
  pose proof (slice_of_slice ws fu t e (Some l) from to a b Hu Ha Hb Ha0 Hb0)
    as E. cbv beta iota zeta in E. fold len in E. rewrite E.
  cbn [option_map].
  unfold clamp_from, clamp_to. repeat split.
  - intros Hab. exists (sub_list a b l).
    destruct (Z.gtb_spec b len); [lia|].
    destruct (Z.gtb_spec a b); [lia|].
    repeat split.
    + apply sub_list_length; lia.
    + intros k Hk. apply sub_list_nth; lia.
  - intros -> Hlen.
    destruct (Z.gtb_spec b len); [|lia].
    destruct (Z.gtb_spec 0 len); [lia|].
    unfold len. rewrite sub_list_all. reflexivity.
  - intros Hlt. fold (clamp_to len b) in *.
    destruct (Z.gtb_spec a (clamp_to len b)); [|lia].
    rewrite sub_list_empty. reflexivity.
Qed.

(** C3, on the code: an array never reaches the clamps' result.  [slice]
    takes [reflect.ValueOf(array)], which is not addressable, and
    [reflect.Value.Slice] panics on an array that is not addressable,
    whatever the bounds. *)
Theorem slice_array_panics ws fu t d from to a b :
  Type_Kind t = reflect.Array ->
  repr_ok t d = true ->
  toInt ws fu from = Ok a -> toInt ws fu to = Ok b ->
  slice ws fu (Some (t, d)) from to
  = Panic (ReflectPanic "reflect.Value.Slice: slice of unaddressable array").
Proof.
  intros K Hr Ha Hb. rewrite slice_eq. cbn [ValueOf Value_Kind]. rewrite K.
  unfold repr_ok in Hr. rewrite K in Hr.
  destruct d; try discriminate Hr.
  destruct (underlying t) eqn:Hu; try discriminate Hr.
  unfold slice_clamped, Value_Len. rewrite K, Hu. cbn [bind].
  rewrite Ha, Hb. cbn [bind].
  unfold Value_Slice. rewrite K. reflexivity.
Qed.

(** [slice([3]int{1, 2, 3}, 0, 2)] panics, where the claim has [1, 2]; the
    slice of the same elements does return them. *)
Lemma slice_array_panics_witness :
  slice W64 no_float_conversion array123 (int 0) (int 2)
  = Panic (ReflectPanic "reflect.Value.Slice: slice of unaddressable array")
  /\ slice W64 no_float_conversion (ints [1; 2; 3]) (int 0) (int 2)
     = Ok (ints [1; 2]).
Proof.
  split.
  - apply (slice_array_panics W64 no_float_conversion (ArrayOf 3 tint)
             (VArray [VInt 1; VInt 2; VInt 3]) (int 0) (int 2) 0 2);
      reflexivity.
  - reflexivity.
Defined.

(** Through a pointer the array is boxed again before the recursive call, and
    the panic is the same. *)
Example slice_pointer_to_array_panics :
  slice W64 no_float_conversion pointer_to_array123 (int 0) (int 2)
  = Panic (ReflectPanic "reflect.Value.Slice: slice of unaddressable array").
Proof. reflexivity. Qed.

(** The clamps at work on [[]int{1, 2, 3}] and on a string. *)
Example slice_clamps_examples :
  slice W64 no_float_conversion (ints [1; 2; 3]) (int 1) (int 10)
  = Ok (ints [2; 3])
  /\ slice W64 no_float_conversion (ints [1; 2; 3]) (int 0) (int 7)
     = Ok (ints [1; 2; 3])
  /\ slice W64 no_float_conversion (ints [1; 2; 3]) (int 5) (int 2)
     = Ok (ints [])
  /\ slice W64 no_float_conversion (str "hello") (int 1) (int 3)
     = Ok (str "el").
Proof. repeat split. Qed.

(** ** The function resolver *)

Lemma lookup_method_NumMethod name t d sig :
  lookup_method name t = Some sig ->
  exists n, Value_NumMethod (Val t d false false) = Ok n /\ (n >? 0) = true.
Proof.
  unfold lookup_method, Value_NumMethod. intros H.
  destruct (method_set t) as [|m ms]; [discriminate H|].
  eexists. split; [reflexivity|]. cbn [List.length]. apply Z.gtb_lt. lia.
Qed.

Lemma FetchFn_no_method t d name :
  lookup_method name t = None ->
  FetchFn (Some (t, d)) name
  = (c <- resolver_target (Val t d false false) ;;
     match Value_Kind c with
     | reflect.Map =>
         value <- Value_MapIndex c (name_key name) ;;
         ok <- (if Value_IsValid value then Value_CanInterface value
                else Ok false) ;;
         if ok then Value_Elem value
         else Panic (CannotGet name (Some t))
     | reflect.Struct =>
         value <- Value_FieldByName c name ;;
         if Value_IsValid value then Ok value
         else Panic (CannotGet name (Some t))
     | _ => Panic (CannotGet name (Some t))
     end).
Proof.
  intros H. unfold FetchFn. cbn [ValueOf Value_NumMethod bind].
  unfold Value_MethodByName. rewrite H.
  destruct (Z.of_nat (List.length (method_set t)) >? 0); reflexivity.
Qed.

Lemma resolver_target_looks_into t d c x addr :
  looks_into t d c x addr ->
  resolver_target (Val t d false false) = Ok (Val c x false addr).
Proof.
  intros [d' K|e a y U]; unfold resolver_target; cbn [Value_Kind].
  - destruct (Type_Kind t); try reflexivity. contradiction.
  - rewrite (underlying_kind t _ U). cbn [Type_Kind reflect.Kind_eqb].
    unfold Value_Elem. rewrite (underlying_kind t _ U), U. reflexivity.
Qed.

Lemma assign_key_name K name :
  assign_key K (name_key name)
  = if accepts_string K then Ok (string_key K name)
    else Panic (not_assignable "reflect.Value.MapIndex"
                               (Basic reflect.String) K).
Proof.
  unfold assign_key, name_key, accepts_string, string_key. cbn [ValueOf].
  destruct (directlyAssignable K (Basic reflect.String)); [reflexivity|].
  cbn [orb]. destruct (implements K (Basic reflect.String)); reflexivity.
Qed.

(** C6, as the code has it.  On the absent container the resolver panics
    inside reflect, in [NumMethod].  On any other container it returns the
    method of that name bound to the container when its type has one; else
    it looks into the container or, through one pointer that is not nil,
    into what it points to.  In a map whose key type does not accept a
    string it panics inside [MapIndex], with reflect's text; in a map whose
    key type does, no entry at the name panics "cannot get", and with
    interface-typed elements the entry at the name yields the value the
    entry holds, the invalid handle when it holds nil.  In a struct the
    field of that name is returned as the handle of the field itself, not
    normalized, read-only when the field is not exported, addressable when
    reached through the pointer; no field panics "cannot get".  Anything
    else, a nil pointer too, panics "cannot get".  The panic "cannot get"
    has the name and the type of the container.  [FetchFnNil] returns the
    invalid handle on the absent container and is [FetchFn] on every
    other. *)
Theorem FetchFn_resolution t d name :
  Type_Kind t <> reflect.Interface ->
  let from := Some (t, d) in
  FetchFn None name
  = Panic (ValueError "reflect.Value.NumMethod" reflect.Invalid)
  /\ (forall sig, lookup_method name t = Some sig ->
        FetchFn from name = Ok (MethodVal t d name sig false))
  /\ (lookup_method name t = None ->
      (forall c x addr, looks_into t d c x addr ->
         (forall K E m, underlying c = MapOf K E -> x = VMap m ->
            let entries := match m with Some l => l | None => [] end in
            (accepts_string K = false ->
             FetchFn from name
             = Panic (ReflectPanic
                        ("reflect.Value.MapIndex: value of type string"
                         ++ " is not assignable to type "
                         ++ Type_String K)))
            /\ (accepts_string K = true ->
                (map_lookup (string_key K name) entries = None ->
                 FetchFn from name = Panic (CannotGet name (Some t)))
                /\ (Type_Kind E = reflect.Interface ->
                    forall i,
                      map_lookup (string_key K name) entries
                      = Some (VIface i) ->
                      FetchFn from name = Ok (ValueOf i))))
         /\ (forall fs ds, underlying c = StructOf fs -> x = VStruct ds ->
               (forall exported ft fd,
                  find_field name fs ds = Some (exported, ft, fd) ->
                  FetchFn from name = Ok (Val ft fd (negb exported) addr))
               /\ (find_field name fs ds = None ->
                   FetchFn from name = Panic (CannotGet name (Some t))))
         /\ (Type_Kind c <> reflect.Map -> Type_Kind c <> reflect.Struct ->
             FetchFn from name = Panic (CannotGet name (Some t))))
      /\ (Type_Kind t = reflect.Ptr -> d = VPtr None ->
          FetchFn from name = Panic (CannotGet name (Some t))))
  /\ FetchFnNil None name = Ok NoValue
  /\ FetchFnNil from name = FetchFn from name.
Proof.
  intros Ht from. subst from. split; [reflexivity|]. split; [|split; [|split]].
  - intros sig H.
    destruct (lookup_method_NumMethod name t d sig H) as (n & Hn & Hpos).
    unfold FetchFn. cbn [ValueOf]. rewrite Hn. cbn [bind]. rewrite Hpos.
    unfold Value_MethodByName. rewrite H.
    destruct (Type_Kind t) eqn:K; try reflexivity.
    contradiction.
  - intros H. rewrite (FetchFn_no_method t d name H). split.
    + intros c x addr L.
      rewrite (resolver_target_looks_into t d c x addr L).
      cbn [bind Value_Kind]. split; [|split].
      * intros K E m U ->.
        rewrite (underlying_kind c _ U). cbn [Type_Kind].
        unfold Value_MapIndex.
        rewrite (underlying_kind c _ U), U. cbn [Type_Kind].
        rewrite assign_key_name. split.
        -- intros A. rewrite A. reflexivity.
        -- intros A. rewrite A. cbn [bind]. split.
           ++ intros M. rewrite M. reflexivity.
           ++ intros KE i M. rewrite M.
              cbn [bind Value_IsValid Value_CanInterface flagRO orb negb
                   name_key ValueOf].
              unfold Value_Elem. rewrite KE.
              destruct i as [[t' d']|]; reflexivity.
      * intros fs ds U ->.
        rewrite (underlying_kind c _ U). cbn [Type_Kind].
        unfold Value_FieldByName.
        rewrite (underlying_kind c _ U), U. cbn [Type_Kind]. split.
        -- intros exported ft fd F. rewrite F. reflexivity.
        -- intros F. rewrite F. reflexivity.
      * intros Hm Hs.
        destruct (Type_Kind c); try reflexivity; contradiction.
    + intros K ->. unfold resolver_target. cbn [Value_Kind]. rewrite K.
      cbn [reflect.Kind_eqb]. unfold Value_Elem. rewrite K. reflexivity.
  - reflexivity.
  - reflexivity.
Qed.

(** On [Scope] the entry ["f"] yields the func it holds, also through a
    pointer, and a name that is no key panics "cannot get"; on a struct the
    field [P] is returned as the pointer it is, where [fetch] returns the
    int it points to; a method of [Env] comes before its map; an int is
    neither map nor struct. *)
Lemma FetchFn_resolution_witness :
  FetchFn scope_with_f "f" = Ok (Val tfunc (VFunc (Some 7)) false false)
  /\ FetchFn pointer_to_scope "f"
     = Ok (Val tfunc (VFunc (Some 7)) false false)
  /\ FetchFn scope_with_f "g" = Panic (CannotGet "g" (Some Scope))
  /\ FetchFn holder "P"
     = Ok (Val (PointerTo tint) (VPtr (Some (8192, VInt 5))) false false)
  /\ fetch W64 no_float_conversion Fetch_nothing holder (str "P") false
     = Ok (int 5)
  /\ FetchFn env "Fetch"
     = Ok (MethodVal Env env_data "Fetch"
                     (FuncOf [emptyInterface] [emptyInterface]) false)
  /\ FetchFn (int 3) "f" = Panic (CannotGet "f" (Some tint)).
Proof.
  split; [|split; [|split; [|split; [|split; [|split]]]]].
  - destruct (FetchFn_resolution Scope scope_data "f") as (_ & _ & H & _);
      [discriminate|].
    destruct (H eq_refl) as [Hc _].
    destruct (Hc Scope scope_data false) as (Hm & _);
      [constructor; discriminate|].
    destruct (Hm tstring emptyInterface
                 (Some [(VString "f", VIface (Some (tfunc, VFunc (Some 7))))])
                 eq_refl eq_refl) as (_ & Ha).
    destruct (Ha eq_refl) as (_ & He).
    apply (He eq_refl (Some (tfunc, VFunc (Some 7)))). reflexivity.
  - destruct (FetchFn_resolution (PointerTo Scope)
                (VPtr (Some (20480, scope_data))) "f") as (_ & _ & H & _);
      [discriminate|].
    destruct (H eq_refl) as [Hc _].
    destruct (Hc Scope scope_data true) as (Hm & _);
      [constructor; reflexivity|].
    destruct (Hm tstring emptyInterface
                 (Some [(VString "f", VIface (Some (tfunc, VFunc (Some 7))))])
                 eq_refl eq_refl) as (_ & Ha).
    destruct (Ha eq_refl) as (_ & He).
    apply (He eq_refl (Some (tfunc, VFunc (Some 7)))). reflexivity.
  - destruct (FetchFn_resolution Scope scope_data "g") as (_ & _ & H & _);
      [discriminate|].
    destruct (H eq_refl) as [Hc _].
    destruct (Hc Scope scope_data false) as (Hm & _);
      [constructor; discriminate|].
    destruct (Hm tstring emptyInterface
                 (Some [(VString "f", VIface (Some (tfunc, VFunc (Some 7))))])
                 eq_refl eq_refl) as (_ & Ha).
    destruct (Ha eq_refl) as (Hn & _).
    apply Hn. reflexivity.
  - destruct (FetchFn_resolution tholder (VStruct [VPtr (Some (8192, VInt 5))])
                "P") as (_ & _ & H & _); [discriminate|].
    destruct (H eq_refl) as [Hc _].
    destruct (Hc tholder (VStruct [VPtr (Some (8192, VInt 5))]) false)
      as (_ & Hs & _); [constructor; discriminate|].
    destruct (Hs [("P"%string, true, PointerTo tint)]
                 [VPtr (Some (8192, VInt 5))] eq_refl eq_refl) as (Hf & _).
    apply (Hf true (PointerTo tint) (VPtr (Some (8192, VInt 5)))).
    reflexivity.
  - reflexivity.
  - destruct (FetchFn_resolution Env env_data "Fetch") as (_ & H & _);
      [discriminate|].
    apply H. reflexivity.
  - destruct (FetchFn_resolution tint (VInt 3) "f") as (_ & _ & H & _);
      [discriminate|].
    destruct (H eq_refl) as [Hc _].
    destruct (Hc tint (VInt 3) false) as (_ & _ & Ho);
      [constructor; discriminate|].
    apply Ho; discriminate.
Defined.

(** C6 fails as stated at [map[int]interface{}{1: f}] and the name ["f"]:
    the container is a map, and [FetchFn] neither returns an entry nor
    panics "cannot get": it panics inside reflect, which does not take a
    string for a key of type int. *)
Lemma FetchFn_int_keyed_map_counterexample :
  FetchFn int_keyed_map "f"
  = Panic (ReflectPanic
             "reflect.Value.MapIndex: value of type string is not assignable to type int")
  /\ FetchFn int_keyed_map "f" <> Panic (CannotGet "f" (TypeOf int_keyed_map))
  /\ forall v, FetchFn int_keyed_map "f" <> Ok v.
Proof.
  split; [reflexivity|]. split; [discriminate|]. intros v. discriminate.
Qed.

(** Outside the property: a map whose elements are not interface-typed.  At
    [map[string]func(){"f": f}] the map has the entry ["f"] and [FetchFn]
    panics inside reflect, calling [Elem] on a func. *)
Example FetchFn_map_of_funcs :
  Value_MapIndex (ValueOf map_of_funcs) (name_key "f")
  = Ok (Val tfunc (VFunc (Some 7)) false false)
  /\ FetchFn map_of_funcs "f"
     = Panic (ValueError "reflect.Value.Elem" reflect.Func).
Proof.
  split; reflexivity.
Qed.

(** * Further properties of runtime.go *)

(** ** Numbers *)

Lemma wrap_signed_narrow w w' z :
  0 < w <= w' -> wrap_signed w (wrap_signed w' z) = wrap_signed w z.
Proof.
  intros Hw.
  assert (H2 : 2 ^ w' = 2 ^ (w' - w) * 2 ^ w)
    by (rewrite <- Z.pow_add_r by lia; f_equal; lia).
  assert (Hpos : 0 < 2 ^ w) by (apply Z.pow_pos_nonneg; lia).
  assert (Hpos' : 0 < 2 ^ w') by (apply Z.pow_pos_nonneg; lia).
  set (h' := 2 ^ (w' - 1)).
  assert (E : wrap_signed w' z
              = z + (- ((z + h') / 2 ^ w') * 2 ^ (w' - w)) * 2 ^ w).
  { unfold wrap_signed. fold h'.
    rewrite (Z.mod_eq (z + h') (2 ^ w')) by lia.
    rewrite <- Z.mul_assoc, <- H2. lia. }
  rewrite E. unfold wrap_signed. f_equal.
  replace (z + - ((z + h') / 2 ^ w') * 2 ^ (w' - w) * 2 ^ w + 2 ^ (w - 1))
    with (z + 2 ^ (w - 1) + - ((z + h') / 2 ^ w') * 2 ^ (w' - w) * 2 ^ w)
    by lia.
  apply Z.mod_add. lia.
Qed.

Lemma wrap_signed_opp_opp w z :
  0 < w -> min_int w <= z <= max_int w ->
  wrap_signed w (- wrap_signed w (- z)) = z.
Proof.
  intros Hw Hz. rewrite (wrap_signed_opp w Hw z Hz).
  destruct (Z.eqb_spec z (min_int w)) as [E | Hne].
  - rewrite (wrap_signed_opp w Hw z Hz).
    rewrite E at 1. rewrite Z.eqb_refl. reflexivity.
  - pose proof (half_pos w Hw).
    assert (Hz' : min_int w <= - z <= max_int w)
      by (unfold min_int, max_int in *; lia).
    rewrite (wrap_signed_opp w Hw (- z) Hz').
    destruct (Z.eqb_spec (- z) (min_int w)) as [E | _];
      [unfold min_int, max_int in *; lia | lia].
Qed.

Lemma wrap_unsigned_opp_opp w z :
  0 < w -> 0 <= z <= max_uint w ->
  wrap_unsigned w (- wrap_unsigned w (- z)) = z.
Proof.
  intros Hw Hz. rewrite (wrap_unsigned_opp w Hw z Hz).
  pose proof (half_pos w Hw). pose proof (pow2_split w Hw).
  destruct (Z.eqb_spec z 0) as [-> | Hne].
  - unfold wrap_unsigned. cbn [Z.opp]. apply Z.mod_0_l. lia.
  - assert (Hz' : 0 <= 2 ^ w - z <= max_uint w)
      by (unfold max_uint in *; lia).
    rewrite (wrap_unsigned_opp w Hw _ Hz').
    destruct (Z.eqb_spec (2 ^ w - z) 0); unfold max_uint in *; lia.
Qed.

Lemma SFopp_involutive f : SFopp (SFopp f) = f.
Proof. destruct f as [s|s| |s m e]; cbn; rewrite ?negb_involutive; reflexivity. Qed.

(** X1: [negate] is its own inverse on every value of the twelve numeric
    types: negating twice gives the value back, in the same type, the least
    signed value and the unsigned values included. *)
Theorem negate_involutive ws k d :
  numeric_value ws k d ->
  (r <- negate ws (Some (Basic k, d)) ;; negate ws r) = Ok (Some (Basic k, d)).
Proof.
  destruct d; cbn [numeric_value]; try contradiction.
  - intros [Hk Hz]. unfold integer_kind in Hk.
    apply orb_true_iff in Hk as [Hs | Hu].
    + rewrite (negate_signed ws k z Hs Hz). cbn [bind].
      unfold in_range in Hz. rewrite Hs in Hz.
      rewrite <- (wrap_signed_opp _ (kind_bits_pos ws k) z Hz).
      assert (Hr : in_range ws k (wrap_signed (kind_bits ws k) (- z))).
      { unfold in_range. rewrite Hs.
        apply wrap_signed_range, kind_bits_pos. }
      rewrite (negate_signed ws k _ Hs Hr).
      unfold in_range in Hr. rewrite Hs in Hr.
      rewrite <- (wrap_signed_opp _ (kind_bits_pos ws k) _ Hr).
      rewrite wrap_signed_opp_opp; [reflexivity | apply kind_bits_pos | exact Hz].
    + rewrite (negate_unsigned ws k z Hu). cbn [bind].
      rewrite (negate_unsigned ws k _ Hu).
      unfold in_range in Hz.
      replace (signed_kind k) with false in Hz
        by (destruct k; try discriminate Hu; reflexivity).
      rewrite wrap_unsigned_opp_opp; [reflexivity | apply kind_bits_pos | exact Hz].
  - intros Hk. rewrite (negate_float ws k f Hk). cbn [bind].
    rewrite (negate_float ws k _ Hk), SFopp_involutive. reflexivity.
Qed.

Lemma negate_involutive_witness :
  (r <- negate W64 (int8 (-128)) ;; negate W64 r) = Ok (int8 (-128))
  /\ (r <- negate W64 (uint8 1) ;; negate W64 r) = Ok (uint8 1).
Proof.
  split.
  - apply (negate_involutive W64 reflect.Int8 (VInt (-128))).
    cbn. unfold in_range, min_int, max_int. cbn. split; [reflexivity | lia].
  - apply (negate_involutive W64 reflect.Uint8 (VInt 1)).
    cbn. unfold in_range, max_uint. cbn. split; [reflexivity | lia].
Defined.

Lemma toInt_non_numeric ws fu a :
  numeric (TypeOf a) = false ->
  toInt ws fu a = Panic (InvalidOperation "int(%T)" (TypeOf a)).
Proof.
  destruct a as [[t d]|]; [|reflexivity].
  destruct t; try reflexivity.
  destruct k; cbn; intros H; try discriminate H; reflexivity.
Qed.

Lemma toInt64_non_numeric fu a :
  numeric (TypeOf a) = false ->
  toInt64 fu a = Panic (InvalidOperation "int64(%T)" (TypeOf a)).
Proof.
  destruct a as [[t d]|]; [|reflexivity].
  destruct t; try reflexivity.
  destruct k; cbn; intros H; try discriminate H; reflexivity.
Qed.

(** X2: [toInt], [toInt64] and [negate] accept the same values: on a value
    of one of the twelve numeric types all three return, and [negate]
    returns a value of the same type; on every other value, nil and the
    defined types included, each panics with its own "invalid operation"
    message carrying the type. *)
Theorem numeric_operators_domain ws fu a :
  well_formed a = true ->
  if numeric (TypeOf a)
  then (exists z, toInt ws fu a = Ok z)
       /\ (exists z, toInt64 fu a = Ok z)
       /\ (exists r, negate ws a = Ok r /\ TypeOf r = TypeOf a)
  else toInt ws fu a = Panic (InvalidOperation "int(%T)" (TypeOf a))
       /\ toInt64 fu a = Panic (InvalidOperation "int64(%T)" (TypeOf a))
       /\ negate ws a = Panic (InvalidOperation "- %T" (TypeOf a)).
Proof.
  intros Hwf.
  destruct (numeric (TypeOf a)) eqn:Hn.
  - destruct a as [[t d]|]; [|discriminate Hn].
    destruct t; try discriminate Hn.
    cbn [well_formed] in Hwf. unfold repr_ok in Hwf. cbn [Type_Kind] in Hwf.
    destruct k, d; try discriminate Hn; try discriminate Hwf;
      (split; [eexists; reflexivity
              | split; [eexists; reflexivity
                       | eexists; split; reflexivity]]).
  - split; [|split].
    + apply toInt_non_numeric; exact Hn.
    + apply toInt64_non_numeric; exact Hn.
    + apply negate_non_numeric; exact Hn.
Qed.

Lemma numeric_operators_domain_witness :
  toInt W64 no_float_conversion (str "7")
  = Panic (InvalidOperation "int(%T)" (Some tstring))
  /\ exists z, toInt64 no_float_conversion (uint8 200) = Ok z.
Proof.
  split.
  - apply (numeric_operators_domain W64 no_float_conversion (str "7") eq_refl).
  - apply (numeric_operators_domain W64 no_float_conversion (uint8 200)
             eq_refl).
Defined.

(** X3: [toInt] is [toInt64] followed by the conversion to [int]: on every
    integer value the result of [toInt] is the result of [toInt64] wrapped
    into the width of [int]; where [int] is 64 bits wide the two agree on
    every numeric value, floats included. *)
Theorem toInt_of_toInt64 ws fu k d :
  numeric_value ws k d ->
  let a := Some (Basic k, d) in
  (integer_kind k = true ->
   toInt ws fu a
   = (z <- toInt64 fu a ;; Ok (wrap_signed (word_bits ws) z)))
  /\ (ws = W64 -> toInt ws fu a = toInt64 fu a).
Proof.
  intros Hv a. subst a. destruct d; cbn [numeric_value] in Hv;
    try contradiction.
  - destruct Hv as [Hk Hz]. split.
    + intros _. rewrite (toInt_integer ws fu k z Hk Hz).
      rewrite (toInt64_integer ws fu k z Hk Hz). cbn [bind]. f_equal.
      symmetry. apply wrap_signed_narrow. destruct ws; cbn; lia.
    + intros ->. rewrite (toInt_integer W64 fu k z Hk Hz).
      rewrite (toInt64_integer W64 fu k z Hk Hz). reflexivity.
  - split.
    + intros Hk. destruct k; discriminate.
    + intros ->. destruct k; try discriminate Hv; reflexivity.
Qed.

Lemma toInt_of_toInt64_witness :
  toInt W32 no_float_conversion (uint64 (2 ^ 32 + 3)) = Ok 3
  /\ toInt64 no_float_conversion (uint64 (2 ^ 32 + 3)) = Ok (2 ^ 32 + 3).
Proof.
  assert (Hv : numeric_value W32 reflect.Uint64 (VInt (2 ^ 32 + 3))).
  { cbn. unfold in_range, max_uint. cbn. split; [reflexivity | lia]. }
  destruct (toInt_of_toInt64 W32 no_float_conversion reflect.Uint64
              (VInt (2 ^ 32 + 3)) Hv) as [H _].
  split; [|reflexivity].
  unfold uint64. rewrite (H eq_refl). reflexivity.
Defined.

Lemma float_trunc_finite s m e :
  float_trunc (S754_finite s m e)
  = Some (if s then - magnitude_floor m e else magnitude_floor m e).
Proof.
  unfold float_trunc, magnitude_floor.
  destruct (Z.leb_spec 0 e).
  - rewrite Z.shiftl_mul_pow2 by assumption. reflexivity.
  - rewrite Z.shiftl_div_pow2 by lia. reflexivity.
Qed.

Lemma magnitude_floor_nonneg m e : 0 <= magnitude_floor m e.
Proof.
  unfold magnitude_floor. destruct (Z.leb_spec 0 e).
  - apply Z.mul_nonneg_nonneg; [lia | apply Z.pow_nonneg; lia].
  - apply Z.div_pos; [lia | apply Z.pow_pos_nonneg; lia].
Qed.

Lemma float_to_int_finite fu w s m e :
  0 < w -> magnitude_floor m e < 2 ^ (w - 1) ->
  float_to_int fu w (S754_finite s m e)
  = if s then - magnitude_floor m e else magnitude_floor m e.
Proof.
  intros Hw Hq. unfold float_to_int. rewrite float_trunc_finite.
  pose proof (magnitude_floor_nonneg m e) as H0.
  destruct s.
  - replace ((- 2 ^ (w - 1) <=? - magnitude_floor m e)
             && (- magnitude_floor m e <? 2 ^ (w - 1))) with true;
      [reflexivity|].
    symmetry. rewrite andb_true_iff, Z.leb_le, Z.ltb_lt. lia.
  - replace ((- 2 ^ (w - 1) <=? magnitude_floor m e)
             && (magnitude_floor m e <? 2 ^ (w - 1))) with true;
      [reflexivity|].
    symmetry. rewrite andb_true_iff, Z.leb_le, Z.ltb_lt. lia.
Qed.

(** X4: the conversion of a float truncates toward zero.  On a finite float
    of either width whose integer part fits, [toInt64] returns the integer
    part of the magnitude with the sign of the float, so that the conversion
    of the negated float is the negative of the conversion; the platform's
    out-of-range result is not involved. *)
Theorem toInt64_float_truncates ws fu k s m e :
  float_kind k = true ->
  magnitude_floor m e < 2 ^ 63 ->
  let x := Some (Basic k, VFloat (S754_finite s m e)) in
  toInt64 fu x = Ok (if s then - magnitude_floor m e else magnitude_floor m e)
  /\ (r <- negate ws x ;; toInt64 fu r)
     = (z <- toInt64 fu x ;; Ok (- z)).
Proof.
  intros Hk Hq x. subst x.
  assert (E : forall s',
             toInt64 fu (Some (Basic k, VFloat (S754_finite s' m e)))
             = Ok (if s' then - magnitude_floor m e else magnitude_floor m e)).
  { intros s'. destruct k; try discriminate Hk; cbn [toInt64];
      rewrite float_to_int_finite by (cbn; lia); reflexivity. }
  split; [apply E|].
  rewrite (negate_float ws k _ Hk). cbn [bind SFopp]. rewrite !E.
  cbn [bind]. destruct s; cbn [negb]; f_equal; lia.
Qed.

(** 2.75 is [11 * 2^-2]: it truncates to 2, and -2.75 to -2. *)
Lemma toInt64_float_truncates_witness :
  toInt64 no_float_conversion (float64 (S754_finite false 11 (-2))) = Ok 2
  /\ toInt64 no_float_conversion (float64 (S754_finite true 11 (-2)))
     = Ok (-2).
Proof.
  split.
  - apply (toInt64_float_truncates W64 no_float_conversion reflect.Float64
             false 11 (-2) eq_refl). reflexivity.
  - apply (toInt64_float_truncates W64 no_float_conversion reflect.Float64
             true 11 (-2) eq_refl). reflexivity.
Defined.

(** ** Access *)


(** X6: on an array, slice or string the key is coerced before anything
    else, so a key that is not of a numeric type (a string, nil, a value of
    a defined type) makes [fetch] panic with the message of [toInt], with
    and without [nilsafe]. *)
Theorem fetch_sequence_key_not_numeric ws fu Fetch t d key nilsafe :
  indexable (Type_Kind t) = true ->
  assert_Fetcher (Some (t, d)) = None ->
  numeric (TypeOf key) = false ->
  fetch ws fu Fetch (Some (t, d)) key nilsafe
  = Panic (InvalidOperation "int(%T)" (TypeOf key)).
Proof.
  intros Hk Hf Hn. unfold fetch. rewrite Hf.
  cbn [ValueOf Value_Kind].
  destruct (Type_Kind t) eqn:K; try discriminate Hk;
    cbn [reflect.Kind_eqb bind Value_Kind]; rewrite K;
    rewrite (toInt_non_numeric ws fu key Hn); reflexivity.
Qed.

Lemma fetch_sequence_key_not_numeric_witness :
  fetch W64 no_float_conversion Fetch_nothing (ints [1; 2; 3]) (str "1") true
  = Panic (InvalidOperation "int(%T)" (Some tstring))
  /\ fetch W64 no_float_conversion Fetch_nothing (str "abc") None true
     = Panic (InvalidOperation "int(%T)" None).
Proof.
  split.
  - apply (fetch_sequence_key_not_numeric W64 no_float_conversion
             Fetch_nothing (SliceOf tint) (VSlice (Some (map VInt [1; 2; 3])))
             (str "1") true); reflexivity.
  - apply (fetch_sequence_key_not_numeric W64 no_float_conversion
             Fetch_nothing tstring (VString "abc") None true); reflexivity.
Defined.

(** X7: what [fetch] cannot look into.  On nil, on a value that is neither
    a sequence, a string, a map nor a struct, on a nil pointer and on a
    pointer to anything but a map, a slice or a struct (a pointer to an
    array or to a pointer, say), [fetch] returns nil when [nilsafe] is set
    and panics with "cannot fetch", the key and the type otherwise. *)
Theorem fetch_opaque ws fu Fetch from key nilsafe :
  opaque_to_fetch from = true ->
  assert_Fetcher from = None ->
  fetch ws fu Fetch from key nilsafe
  = if nilsafe then Ok None else Panic (CannotFetch key (TypeOf from)).
Proof.
  intros Ho Hf. unfold fetch. rewrite Hf.
  destruct from as [[t d]|]; [|destruct nilsafe; reflexivity].
  cbn [opaque_to_fetch] in Ho. cbn [ValueOf Value_Kind].
  destruct (Type_Kind t) eqn:K; try discriminate Ho;
    cbn [reflect.Kind_eqb bind Value_Kind]; rewrite ?K;
    try (destruct nilsafe; reflexivity).
  unfold Indirect. cbn [Value_Kind]. rewrite K. unfold Value_Elem. rewrite K.
  destruct d; try discriminate Ho.
  destruct p as [[a d']|].
  - destruct (underlying t); try discriminate Ho.
    cbn [bind Value_Kind]. apply negb_true_iff in Ho. rewrite Ho.
    cbn [bind Value_Kind]. rewrite K. destruct nilsafe; reflexivity.
  - cbn [bind Value_Kind follow]. rewrite K. destruct nilsafe; reflexivity.
Qed.

Lemma fetch_opaque_witness :
  fetch W64 no_float_conversion Fetch_nothing pointer_to_array123 (int 0) true
  = Ok None
  /\ fetch W64 no_float_conversion Fetch_nothing None (str "a") false
     = Panic (CannotFetch (str "a") None)
  /\ fetch W64 no_float_conversion Fetch_nothing (int 7) (int 0) true
     = Ok None.
Proof.
  split; [|split].
  - apply (fetch_opaque W64 no_float_conversion Fetch_nothing
             pointer_to_array123 (int 0) true); reflexivity.
  - apply (fetch_opaque W64 no_float_conversion Fetch_nothing
             None (str "a") false); reflexivity.
  - apply (fetch_opaque W64 no_float_conversion Fetch_nothing
             (int 7) (int 0) true); reflexivity.
Defined.

Lemma normalize_plain t d addr :
  Type_Kind t <> reflect.Interface -> Type_Kind t <> reflect.Pointer ->
  normalize (Val t d false addr) = Ok (Some (t, d)).
Proof.
  intros Hi Hp. unfold normalize. cbn [Value_Kind].
  destruct (Type_Kind t) eqn:K; try contradiction;
    cbn [reflect.Kind_eqb bind Value_Kind]; rewrite K;
    cbn [reflect.Kind_eqb bind]; unfold Value_Interface; rewrite K;
    reflexivity.
Qed.

Lemma normalize_unexported t d addr :
  Type_Kind t <> reflect.Interface -> Type_Kind t <> reflect.Pointer ->
  normalize (Val t d true addr) = Panic (ReflectPanic unexported_msg).
Proof.
  intros Hi Hp. unfold normalize. cbn [Value_Kind].
  destruct (Type_Kind t) eqn:K; try contradiction;
    cbn [reflect.Kind_eqb bind Value_Kind]; rewrite K;
    cbn [reflect.Kind_eqb bind]; reflexivity.
Qed.

(** The flag [flagAddr] plays no part in [normalize]. *)
Lemma normalize_addr t d ro addr addr' :
  normalize (Val t d ro addr) = normalize (Val t d ro addr').
Proof.
  unfold normalize, Value_Elem, Value_Interface. cbn [Value_Kind].
  destruct (Type_Kind t) eqn:K; cbn [reflect.Kind_eqb bind Value_Kind];
    rewrite ?K; cbn [reflect.Kind_eqb bind]; rewrite ?K; try reflexivity.
  - destruct d; try reflexivity.
    destruct dyn as [[t' d']|]; cbn [bind Value_Kind reflect.Kind_eqb];
      rewrite ?K; cbn [reflect.Kind_eqb bind Value_Kind]; rewrite ?K;
      try reflexivity.
    destruct (reflect.Kind_eqb (Type_Kind t') reflect.Pointer);
      cbn [bind Value_Kind]; rewrite ?K; cbn [reflect.Kind_eqb bind];
      rewrite ?K; reflexivity.
  - destruct d; try reflexivity.
    destruct p as [[a d']|]; [|cbn [bind Value_Kind deref]; rewrite ?K;
                                reflexivity].
    destruct (underlying t); try reflexivity.
    cbn [bind Value_Kind].
    destruct (deref (Type_Kind r)); cbn [bind]; rewrite ?K; reflexivity.
Qed.

Lemma fetch_struct ws fu Fetch t fs ds key nilsafe :
  underlying t = StructOf fs ->
  assert_Fetcher (Some (t, VStruct ds)) = None ->
  fetch ws fu Fetch (Some (t, VStruct ds)) key nilsafe
  = match find_field (Value_String (ValueOf key)) fs ds with
    | Some (exported, ft, fd) => normalize (Val ft fd (negb exported) false)
    | None => normalize NoValue
    end.
Proof.
  intros Hu Hf. unfold fetch. rewrite Hf.
  pose proof (underlying_kind t _ Hu) as K. cbn in K.
  cbn [ValueOf Value_Kind]. rewrite K. cbn [reflect.Kind_eqb bind Value_Kind].
  rewrite K. unfold Value_FieldByName. rewrite K, Hu.
  destruct (find_field _ fs ds) as [[[x ft] fd]|]; reflexivity.
Qed.

(** X8: on a struct [fetch] returns the field the key names, with the type
    of the field, when the field is exported (and is neither a pointer nor
    an interface, which [normalize] unwraps): [fetch(R, "f", _) = R.f], with
    and without [nilsafe]. *)
Theorem fetch_struct_field ws fu Fetch t fs ds key ft fd nilsafe :
  underlying t = StructOf fs ->
  assert_Fetcher (Some (t, VStruct ds)) = None ->
  find_field (Value_String (ValueOf key)) fs ds = Some (true, ft, fd) ->
  Type_Kind ft <> reflect.Interface -> Type_Kind ft <> reflect.Pointer ->
  fetch ws fu Fetch (Some (t, VStruct ds)) key nilsafe = Ok (Some (ft, fd)).
Proof.
  intros Hu Hf Hfield Hi Hp.
  rewrite (fetch_struct ws fu Fetch t fs ds key nilsafe Hu Hf), Hfield.
  apply normalize_plain; assumption.
Qed.

Lemma fetch_struct_field_witness :
  fetch W64 no_float_conversion Fetch_nothing record (str "Name") false
  = Ok (str "go").
Proof.
  apply (fetch_struct_field W64 no_float_conversion Fetch_nothing trecord
           _ [VString "go"; VInt 42; VPtr (Some (8192, VInt 5))] (str "Name") tstring (VString "go") false eq_refl eq_refl
           eq_refl); discriminate.
Defined.

(** X9: a struct has no soft failure.  When the struct has no field of the
    name the key gives (a key that is not a string never names one),
    [fetch] panics inside reflect, calling [Interface] on the zero Value;
    when the field is not exported it panics inside reflect as well; both
    with and without [nilsafe], which never turns them into nil. *)
Theorem fetch_struct_field_errors ws fu Fetch t fs ds key nilsafe :
  underlying t = StructOf fs ->
  assert_Fetcher (Some (t, VStruct ds)) = None ->
  (find_field (Value_String (ValueOf key)) fs ds = None ->
   fetch ws fu Fetch (Some (t, VStruct ds)) key nilsafe
   = Panic (ValueError "reflect.Value.Interface" reflect.Invalid))
  /\ (forall ft fd,
        find_field (Value_String (ValueOf key)) fs ds = Some (false, ft, fd) ->
        Type_Kind ft <> reflect.Interface -> Type_Kind ft <> reflect.Pointer ->
        fetch ws fu Fetch (Some (t, VStruct ds)) key nilsafe
        = Panic (ReflectPanic unexported_msg)).
Proof.
  intros Hu Hf. split.
  - intros Hnone.
    rewrite (fetch_struct ws fu Fetch t fs ds key nilsafe Hu Hf), Hnone.
    reflexivity.
  - intros ft fd Hfield Hi Hp.
    rewrite (fetch_struct ws fu Fetch t fs ds key nilsafe Hu Hf), Hfield.
    apply normalize_unexported; assumption.
Qed.

Lemma fetch_struct_field_errors_witness :
  fetch W64 no_float_conversion Fetch_nothing record (str "Missing") true
  = Panic (ValueError "reflect.Value.Interface" reflect.Invalid)
  /\ fetch W64 no_float_conversion Fetch_nothing record (int 0) true
     = Panic (ValueError "reflect.Value.Interface" reflect.Invalid)
  /\ fetch W64 no_float_conversion Fetch_nothing record (str "secret") true
     = Panic (ReflectPanic unexported_msg).
Proof.
  split; [|split].
  - apply (fetch_struct_field_errors W64 no_float_conversion Fetch_nothing
             trecord _ [VString "go"; VInt 42; VPtr (Some (8192, VInt 5))]
             (str "Missing") true eq_refl eq_refl). reflexivity.
  - apply (fetch_struct_field_errors W64 no_float_conversion Fetch_nothing
             trecord _ [VString "go"; VInt 42; VPtr (Some (8192, VInt 5))]
             (int 0) true eq_refl eq_refl). reflexivity.
  - apply (fetch_struct_field_errors W64 no_float_conversion Fetch_nothing
             trecord _ [VString "go"; VInt 42; VPtr (Some (8192, VInt 5))]
             (str "secret") true eq_refl eq_refl) with (ft := tint) (fd := VInt 42);
      [reflexivity | discriminate | discriminate].
Defined.

Lemma fetch_slice_index ws fu Fetch t e l key n x nilsafe :
  underlying t = SliceOf e ->
  assert_Fetcher (Some (t, VSlice (Some l))) = None ->
  toInt ws fu key = Ok n -> 0 <= n ->
  nth_error l (Z.to_nat n) = Some x ->
  fetch ws fu Fetch (Some (t, VSlice (Some l))) key nilsafe
  = normalize (Val e x false true).
Proof.
  intros Hu Hf Hkey Hn Hx. unfold fetch. rewrite Hf.
  pose proof (underlying_kind t _ Hu) as K. cbn in K.
  cbn [ValueOf Value_Kind]. rewrite K. cbn [reflect.Kind_eqb bind Value_Kind].
  rewrite K, Hkey. cbn [bind]. unfold Value_Index. rewrite K, Hu.
  assert (Hlt : (Z.to_nat n < List.length l)%nat)
    by (apply nth_error_Some; rewrite Hx; discriminate).
  replace ((n <? 0) || (Z.of_nat (List.length l) <=? n)) with false
    by (symmetry; rewrite orb_false_iff, Z.ltb_ge, Z.leb_gt; lia).
  rewrite Hx. reflexivity.
Qed.

(** X10: within the bounds [fetch] is indexing.  For a key that [toInt]
    coerces to [n] with [0 <= n < len], [fetch] returns the element at [n]
    of a slice or an array, with the element type (for elements that are
    neither pointers nor interfaces), and the byte at [n] of a string, as a
    [uint8]; [nilsafe] makes no difference. *)
Theorem fetch_index_in_range ws fu Fetch key n nilsafe :
  toInt ws fu key = Ok n -> 0 <= n ->
  (forall t e l x,
     underlying t = SliceOf e ->
     assert_Fetcher (Some (t, VSlice (Some l))) = None ->
     Type_Kind e <> reflect.Interface -> Type_Kind e <> reflect.Pointer ->
     nth_error l (Z.to_nat n) = Some x ->
     fetch ws fu Fetch (Some (t, VSlice (Some l))) key nilsafe
     = Ok (Some (e, x)))
  /\ (forall t len e l x,
        underlying t = ArrayOf len e ->
        assert_Fetcher (Some (t, VArray l)) = None ->
        Type_Kind e <> reflect.Interface -> Type_Kind e <> reflect.Pointer ->
        n < Z.of_nat len ->
        nth_error l (Z.to_nat n) = Some x ->
        fetch ws fu Fetch (Some (t, VArray l)) key nilsafe
        = Ok (Some (e, x)))
  /\ (forall t s c,
        Type_Kind t = reflect.String ->
        assert_Fetcher (Some (t, VString s)) = None ->
        String.get (Z.to_nat n) s = Some c ->
        fetch ws fu Fetch (Some (t, VString s)) key nilsafe
        = Ok (Some (Basic reflect.Uint8, byte_of_ascii c))).
Proof.
  intros Hkey Hn. split; [|split].
  - intros t e l x Hu Hf Hi Hp Hx.
    rewrite (fetch_slice_index ws fu Fetch t e l key n x nilsafe); try assumption.
    apply normalize_plain; assumption.
  - intros t len e l x Hu Hf Hi Hp Hlt Hx. unfold fetch. rewrite Hf.
    pose proof (underlying_kind t _ Hu) as K. cbn in K.
    cbn [ValueOf Value_Kind]. rewrite K.
    cbn [reflect.Kind_eqb bind Value_Kind]. rewrite K, Hkey. cbn [bind].
    unfold Value_Index. rewrite K, Hu.
    replace ((n <? 0) || (Z.of_nat len <=? n)) with false
      by (symmetry; rewrite orb_false_iff, Z.ltb_ge, Z.leb_gt; lia).
    rewrite Hx. cbn [bind]. apply normalize_plain; assumption.
  - intros t s c K Hf Hc. unfold fetch. rewrite Hf.
    cbn [ValueOf Value_Kind]. rewrite K.
    cbn [reflect.Kind_eqb bind Value_Kind]. rewrite K, Hkey. cbn [bind].
    unfold Value_Index. rewrite K.
    assert (Hlt : (Z.to_nat n < String.length s)%nat).
    { destruct (Nat.ltb_spec (Z.to_nat n) (String.length s)) as [H|H];
        [exact H|].
      exfalso. revert Hc. clear - H.
      revert s H. generalize (Z.to_nat n) as k.
      induction k as [|k IH]; intros [|a s] H; cbn in *;
        try discriminate; try lia.
      apply IH. lia. }
    replace ((n <? 0) || (Z.of_nat (String.length s) <=? n)) with false
      by (symmetry; rewrite orb_false_iff, Z.ltb_ge, Z.leb_gt; lia).
    rewrite Hc. cbn [bind]. apply normalize_plain; discriminate.
Qed.

Lemma fetch_index_in_range_witness :
  fetch W64 no_float_conversion Fetch_nothing (ints [1; 2; 3]) (uint8 2) false
  = Ok (int 3)
  /\ fetch W64 no_float_conversion Fetch_nothing array123 (int 0) false
     = Ok (int 1)
  /\ fetch W64 no_float_conversion Fetch_nothing (str "abc") (int 1) false
     = Ok (uint8 98).
Proof.
  destruct (fetch_index_in_range W64 no_float_conversion Fetch_nothing
              (uint8 2) 2 false eq_refl) as (Hs & _ & _); [lia|].
  destruct (fetch_index_in_range W64 no_float_conversion Fetch_nothing
              (int 0) 0 false eq_refl) as (_ & Ha & _); [lia|].
  destruct (fetch_index_in_range W64 no_float_conversion Fetch_nothing
              (int 1) 1 false eq_refl) as (_ & _ & Hstr); [lia|].
  split; [|split].
  - apply (Hs (SliceOf tint) tint (map VInt [1; 2; 3]) (VInt 3));
      try reflexivity; discriminate.
  - apply (Ha (ArrayOf 3 tint) 3%nat tint [VInt 1; VInt 2; VInt 3] (VInt 1));
      try reflexivity; discriminate.
  - apply (Hstr tstring "abc"%string "b"%char); reflexivity.
Defined.

(** X11: the one level of dereference of [normalize], seen from [fetch] on a
    slice of pointers, in a container without the custom accessor and at a
    numeric key that is not negative.  An element that points to a bool, an
    int or uint of any width, a float, a complex, a string, a map or a slice
    is returned as the value it points to; an element that points to a
    uintptr, an array, a chan, a func, an interface, a pointer, a struct or
    an unsafe.Pointer is returned as the pointer; a nil element is returned
    as the typed nil pointer, not as the absent value. *)
Theorem fetch_slice_of_pointers ws fu Fetch t e p l key n nilsafe :
  underlying t = SliceOf e ->
  underlying e = PointerTo p ->
  assert_Fetcher (Some (t, VSlice (Some l))) = None ->
  toInt ws fu key = Ok n -> 0 <= n ->
  (forall a y,
     nth_error l (Z.to_nat n) = Some (VPtr (Some (a, y))) ->
     (In (Type_Kind p)
         [reflect.Bool;
          reflect.Int; reflect.Int8; reflect.Int16; reflect.Int32;
          reflect.Int64;
          reflect.Uint; reflect.Uint8; reflect.Uint16; reflect.Uint32;
          reflect.Uint64;
          reflect.Float32; reflect.Float64;
          reflect.Complex64; reflect.Complex128;
          reflect.String; reflect.Map; reflect.Slice] ->
      fetch ws fu Fetch (Some (t, VSlice (Some l))) key nilsafe
      = Ok (Some (p, y)))
     /\ (In (Type_Kind p)
            [reflect.Uintptr; reflect.Array; reflect.Chan; reflect.Func;
             reflect.Interface; reflect.Pointer; reflect.Struct;
             reflect.UnsafePointer] ->
         fetch ws fu Fetch (Some (t, VSlice (Some l))) key nilsafe
         = Ok (Some (e, VPtr (Some (a, y))))))
  /\ (nth_error l (Z.to_nat n) = Some (VPtr None) ->
      fetch ws fu Fetch (Some (t, VSlice (Some l))) key nilsafe
      = Ok (Some (e, VPtr None))).
Proof.
  intros Hu He Hf Hkey Hn.
  pose proof (underlying_kind e _ He) as K. cbn in K.
  split.
  - intros a y Hx.
    rewrite (fetch_slice_index ws fu Fetch t e l key n
               (VPtr (Some (a, y))) nilsafe); try assumption.
    unfold normalize. cbn [Value_Kind]. rewrite K.
    cbn [reflect.Kind_eqb bind Value_Kind]. rewrite K.
    cbn [reflect.Kind_eqb]. unfold Value_Elem. rewrite K, He.
    cbn [bind Value_Kind].
    split; intros D; cbn [In] in D;
      repeat (destruct D as [D|D]; [rewrite <- D; cbn [deref bind]|]);
      try contradiction;
      unfold Value_Interface; rewrite <- ?D, ?K; reflexivity.
  - intros Hx.
    rewrite (fetch_slice_index ws fu Fetch t e l key n (VPtr None) nilsafe);
      try assumption.
    unfold normalize. cbn [Value_Kind]. rewrite K.
    cbn [reflect.Kind_eqb bind Value_Kind]. rewrite K.
    cbn [reflect.Kind_eqb]. unfold Value_Elem. rewrite K.
    cbn [bind Value_Kind deref]. unfold Value_Interface. rewrite K.
    reflexivity.
Qed.

(** [[]*int{&five, nil}] at 0 is the int, at 1 the nil pointer;
    [[]*uintptr{&five}] at 0 is the pointer. *)
Lemma fetch_slice_of_pointers_witness :
  fetch W64 no_float_conversion Fetch_nothing int_pointers (int 0) false
  = Ok (int 5)
  /\ fetch W64 no_float_conversion Fetch_nothing int_pointers (int 1) false
     = Ok nil_pointer
  /\ fetch W64 no_float_conversion Fetch_nothing uintptr_pointers (int 0)
           false
     = Ok (Some (PointerTo (Basic reflect.Uintptr),
                 VPtr (Some (8192, VInt 5)))).
Proof.
  destruct (fetch_slice_of_pointers W64 no_float_conversion Fetch_nothing
              (SliceOf (PointerTo tint)) (PointerTo tint) tint
              [VPtr (Some (8192, VInt 5)); VPtr None] (int 0) 0 false
              eq_refl eq_refl eq_refl eq_refl) as [H0 _]; [lia|].
  destruct (fetch_slice_of_pointers W64 no_float_conversion Fetch_nothing
              (SliceOf (PointerTo tint)) (PointerTo tint) tint
              [VPtr (Some (8192, VInt 5)); VPtr None] (int 1) 1 false
              eq_refl eq_refl eq_refl eq_refl) as [_ H1]; [lia|].
  destruct (fetch_slice_of_pointers W64 no_float_conversion Fetch_nothing
              (SliceOf (PointerTo (Basic reflect.Uintptr)))
              (PointerTo (Basic reflect.Uintptr)) (Basic reflect.Uintptr)
              [VPtr (Some (8192, VInt 5))] (int 0) 0 false
              eq_refl eq_refl eq_refl eq_refl) as [H2 _]; [lia|].
  split; [|split].
  - destruct (H0 8192 (VInt 5) eq_refl) as [Hv _].
    apply Hv. cbn. tauto.
  - apply H1. reflexivity.
  - destruct (H2 8192 (VInt 5) eq_refl) as [_ Hp].
    apply Hp. cbn. tauto.
Defined.

Lemma MapIndex_addr t d ro addr addr' key :
  Value_MapIndex (Val t d ro addr) key = Value_MapIndex (Val t d ro addr') key.
Proof. reflexivity. Qed.

Lemma Index_slice_addr t d ro addr addr' n :
  Type_Kind t = reflect.Slice ->
  Value_Index (Val t d ro addr) n = Value_Index (Val t d ro addr') n.
Proof. intros K. unfold Value_Index. rewrite K. reflexivity. Qed.

Lemma assert_Fetcher_not_implemented t d :
  implements Fetcher t = false -> assert_Fetcher (Some (t, d)) = None.
Proof. intros H. unfold assert_Fetcher. rewrite H. reflexivity. Qed.

(** X12: [fetch] on a pointer to a slice, a struct or a map, against [fetch]
    on what it points to.  When neither the type of the pointer nor the type
    pointed to has the custom accessor, the pointer is transparent: it gives
    what the value pointed to gives, result or panic, for every key and both
    settings of [nilsafe], but for a key absent from a map, where the
    pointer gives the nil map of the type pointed to and the map itself the
    zero value of its element type.  When the type of the pointer has the
    accessor, [fetch] on the pointer is the answer of [Fetch]; when the type
    pointed to has none, as with a [Fetch] of pointer receiver, [fetch] on
    the value reads the container and never asks [Fetch], so the two
    differ wherever [Fetch] does not answer what the container holds. *)
Theorem fetch_through_pointer ws fu Fetch pt t a d key nilsafe :
  underlying pt = PointerTo t ->
  let pointer := Some (pt, VPtr (Some (a, d))) in
  let pointee := Some (t, d) in
  (implements Fetcher pt = false -> implements Fetcher t = false ->
   (match Type_Kind t with
    | reflect.Slice | reflect.Struct => True
    | reflect.Map =>
        Value_MapIndex (Val t d false false) (ValueOf key) <> Ok NoValue
    | _ => False
    end ->
    fetch ws fu Fetch pointer key nilsafe
    = fetch ws fu Fetch pointee key nilsafe)
   /\ (forall K E,
         underlying t = MapOf K E ->
         Value_MapIndex (Val t d false false) (ValueOf key) = Ok NoValue ->
         fetch ws fu Fetch pointer key nilsafe = Ok (Some (t, VMap None))
         /\ fetch ws fu Fetch pointee key nilsafe
            = Value_Interface (Zero E)))
  /\ (implements Fetcher pt = true ->
      fetch ws fu Fetch pointer key nilsafe
      = (value <- Fetch pt (VPtr (Some (a, d))) key ;;
         match value with
         | Some x => Ok (Some x)
         | None =>
             if nilsafe then Ok None else Panic (CannotFetch key (Some pt))
         end))
  /\ (implements Fetcher t = false ->
      forall Fetch',
        fetch ws fu Fetch' pointee key nilsafe
        = fetch ws fu Fetch pointee key nilsafe).
Proof.
  intros Hp pointer pointee. subst pointer pointee.
  pose proof (underlying_kind pt _ Hp) as Kp. cbn in Kp.
  split; [|split].
  - intros Ip It.
    pose proof (assert_Fetcher_not_implemented pt (VPtr (Some (a, d))) Ip)
      as Hfp.
    pose proof (assert_Fetcher_not_implemented t d It) as Hf.
    split.
    + intros Hk. unfold fetch. rewrite Hfp, Hf.
      cbn [ValueOf Value_Kind]. rewrite Kp. cbn [reflect.Kind_eqb].
      unfold Indirect. cbn [Value_Kind]. rewrite Kp.
      unfold Value_Elem. rewrite Kp, Hp. cbn [bind Value_Kind].
      destruct (Type_Kind t) eqn:K; try contradiction;
        cbn [follow bind reflect.Kind_eqb Value_Kind]; rewrite K.
      * (* map *)
        rewrite (MapIndex_addr t d false true false).
        destruct (Value_MapIndex (Val t d false false) (ValueOf key))
          as [[|vt vd vro vaddr|rt r nm sg vro]|p]; cbn [bind Value_IsValid];
          try reflexivity.
        contradiction Hk. reflexivity.
      * (* slice *)
        destruct (toInt ws fu key) as [n|p]; cbn [bind]; [|reflexivity].
        rewrite (Index_slice_addr t d false true false n K). reflexivity.
      * (* struct *)
        unfold Value_FieldByName. rewrite K.
        destruct d; try reflexivity.
        destruct (underlying t); try reflexivity.
        destruct (find_field _ fields0 fields) as [[[x ft] fd]|]; cbn [bind];
          [|reflexivity].
        apply normalize_addr.
    + intros K E U M.
      pose proof (underlying_kind t _ U) as Kt. cbn in Kt.
      unfold fetch. rewrite Hfp, Hf.
      cbn [ValueOf Value_Kind]. rewrite Kp. cbn [reflect.Kind_eqb].
      unfold Indirect. cbn [Value_Kind]. rewrite Kp.
      unfold Value_Elem. rewrite Kp, Hp. cbn [bind Value_Kind].
      rewrite Kt. cbn [follow bind reflect.Kind_eqb Value_Kind]. rewrite Kt.
      rewrite (MapIndex_addr t d false true false), M.
      cbn [bind Value_IsValid]. unfold Type_Elem, TypeOf.
      cbn [option_map fst]. rewrite Hp, U.
      cbn [bind]. split; [|reflexivity].
      unfold Value_Interface, Zero. rewrite Kt.
      destruct t; cbn in U; try discriminate U.
      * reflexivity.
      * rewrite U. reflexivity.
  - intros Ip. apply (fetch_Fetcher ws fu Fetch pt _ key nilsafe Ip).
  - intros It Fetch'. unfold fetch.
    rewrite (assert_Fetcher_not_implemented t d It). reflexivity.
Qed.

(** A pointer to [record] and to [map[string]int{"a": 1}] at a key they
    have; the same map at a key it has not; and [Account], whose [Fetch] has
    a pointer receiver: the pointer is answered by the host, the value by its
    field. *)
Lemma fetch_through_pointer_witness :
  fetch W64 no_float_conversion Fetch_nothing pointer_to_record (str "Name")
        false
  = Ok (str "go")
  /\ fetch W64 no_float_conversion Fetch_nothing pointer_to_map_a1 (str "a")
           false
     = Ok (int 1)
  /\ (fetch W64 no_float_conversion Fetch_nothing pointer_to_map_a1 (str "b")
            false
      = Ok (Some (map_string_int, VMap None))
      /\ fetch W64 no_float_conversion Fetch_nothing
               (Some (map_string_int, map_a1)) (str "b") false
         = Ok (int 0))
  /\ (fetch W64 no_float_conversion Fetch_42 pointer_to_account (str "Name")
            false
      = Ok (int 42)
      /\ fetch W64 no_float_conversion Fetch_42 account (str "Name") false
         = Ok (str "go")).
Proof.
  split; [|split; [|split]].
  - unfold pointer_to_record.
    destruct (fetch_through_pointer W64 no_float_conversion Fetch_nothing
                (PointerTo trecord) trecord 16384 record_data (str "Name")
                false eq_refl) as (H & _).
    destruct (H eq_refl eq_refl) as (He & _).
    rewrite He; [reflexivity|exact I].
  - unfold pointer_to_map_a1.
    destruct (fetch_through_pointer W64 no_float_conversion Fetch_nothing
                (PointerTo map_string_int) map_string_int 4096 map_a1
                (str "a") false eq_refl) as (H & _).
    destruct (H eq_refl eq_refl) as (He & _).
    rewrite He; [reflexivity|cbn; discriminate].
  - destruct (fetch_through_pointer W64 no_float_conversion Fetch_nothing
                (PointerTo map_string_int) map_string_int 4096 map_a1
                (str "b") false eq_refl) as (H & _).
    destruct (H eq_refl eq_refl) as (_ & Hm).
    apply (Hm tstring tint); reflexivity.
  - destruct (fetch_through_pointer W64 no_float_conversion Fetch_42
                (PointerTo Account) Account 24576 account_data (str "Name")
                false eq_refl) as (_ & Hp & Hv).
    split.
    + unfold pointer_to_account. rewrite (Hp eq_refl). reflexivity.
    + unfold account. rewrite <- (Hv eq_refl Fetch_nothing). reflexivity.
Defined.

(** X13: [FetchFn] and [fetch] read the same field.  On a struct whose type
    has no method of the name, whatever handle [FetchFn] returns for a name
    is the field that [fetch] returns for the same name after [normalize]:
    [fetch(s, name, _) = normalize(FetchFn(s, name))]. *)
Theorem fetch_normalizes_FetchFn ws fu Fetch t fs ds name f nilsafe :
  underlying t = StructOf fs ->
  assert_Fetcher (Some (t, VStruct ds)) = None ->
  lookup_method name t = None ->
  FetchFn (Some (t, VStruct ds)) name = Ok f ->
  fetch ws fu Fetch (Some (t, VStruct ds))
        (Some (Basic reflect.String, VString name)) nilsafe
  = normalize f.
Proof.
  intros Hu Hf Hm HF.
  rewrite (fetch_struct ws fu Fetch t fs ds _ nilsafe Hu Hf).
  rewrite (FetchFn_no_method t (VStruct ds) name Hm) in HF.
  pose proof (underlying_kind t _ Hu) as K. cbn in K.
  unfold resolver_target in HF. cbn [Value_Kind] in HF. rewrite K in HF.
  cbn [reflect.Kind_eqb bind Value_Kind] in HF. rewrite K in HF.
  unfold Value_FieldByName in HF. rewrite K, Hu in HF.
  cbn [ValueOf Value_String Type_Kind].
  destruct (find_field name fs ds) as [[[x ft] fd]|];
    cbn [bind Value_IsValid] in HF; [|discriminate HF].
  injection HF as <-. reflexivity.
Qed.

Lemma fetch_normalizes_FetchFn_witness :
  fetch W64 no_float_conversion Fetch_nothing record (str "P") false
  = normalize (Val (PointerTo tint) (VPtr (Some (8192, VInt 5))) false false).
Proof.
  apply (fetch_normalizes_FetchFn W64 no_float_conversion Fetch_nothing
           trecord _ [VString "go"; VInt 42; VPtr (Some (8192, VInt 5))]
           "P" _ false eq_refl eq_refl eq_refl eq_refl).
Defined.

(** ** Slices *)

Lemma clamp_negative len a b :
  0 <= len -> a < 0 \/ b < 0 -> clamp_from (clamp_to len b) a < 0.
Proof.
  unfold clamp_from, clamp_to. intros Hlen H.
  destruct (Z.gtb_spec b len), (Z.gtb_spec a len), (Z.gtb_spec a b); lia.
Qed.

(** X14: the clamps of [slice] absorb bounds that are too high, not bounds
    below zero: on a slice or a string, a negative low or high bound makes
    [slice] panic inside reflect with "index out of bounds". *)
Theorem slice_negative_bound_panics ws fu t from to a b :
  toInt ws fu from = Ok a -> toInt ws fu to = Ok b ->
  a < 0 \/ b < 0 ->
  (forall e s,
     underlying t = SliceOf e ->
     slice ws fu (Some (t, VSlice s)) from to
     = Panic (ReflectPanic "reflect.Value.Slice: slice index out of bounds"))
  /\ (forall s,
        Type_Kind t = reflect.String ->
        slice ws fu (Some (t, VString s)) from to
        = Panic (ReflectPanic
                   "reflect.Value.Slice: string slice index out of bounds")).
Proof.
  intros Ha Hb Hneg. split.
  - intros e s Hu.
    pose proof (underlying_kind t _ Hu) as K. cbn in K.
    rewrite slice_eq. cbn [ValueOf Value_Kind]. rewrite K.
    unfold slice_clamped, Value_Len. rewrite K, Hu.
    set (l := match s with Some l => l | None => [] end).
    replace (match s with
             | Some l0 => Ok (Z.of_nat (Datatypes.length l0))
             | None => Ok 0
             end) with (@Ok Z (Z.of_nat (List.length l)))
      by (destruct s; reflexivity).
    cbn [bind]. rewrite Ha, Hb. cbn [bind].
    fold (clamp_to (Z.of_nat (List.length l)) b).
    fold (clamp_from (clamp_to (Z.of_nat (List.length l)) b) a).
    pose proof (clamp_negative (Z.of_nat (List.length l)) a b
                  ltac:(lia) Hneg) as Hi.
    unfold Value_Slice. rewrite K. fold l.
    apply Z.ltb_lt in Hi. rewrite Hi. reflexivity.
  - intros s K.
    rewrite slice_eq. cbn [ValueOf Value_Kind]. rewrite K.
    unfold slice_clamped, Value_Len. rewrite K.
    cbn [bind]. rewrite Ha, Hb. cbn [bind].
    fold (clamp_to (Z.of_nat (String.length s)) b).
    fold (clamp_from (clamp_to (Z.of_nat (String.length s)) b) a).
    pose proof (clamp_negative (Z.of_nat (String.length s)) a b
                  ltac:(lia) Hneg) as Hi.
    unfold Value_Slice. rewrite K.
    apply Z.ltb_lt in Hi. rewrite Hi. reflexivity.
Qed.

Lemma slice_negative_bound_panics_witness :
  slice W64 no_float_conversion (ints [1; 2; 3]) (int (-1)) (int 2)
  = Panic (ReflectPanic "reflect.Value.Slice: slice index out of bounds")
  /\ slice W64 no_float_conversion (str "abc") (int 0) (int (-1))
     = Panic (ReflectPanic
                "reflect.Value.Slice: string slice index out of bounds").
Proof.
  split.
  - destruct (slice_negative_bound_panics W64 no_float_conversion
                (SliceOf tint) (int (-1)) (int 2) (-1) 2 eq_refl eq_refl)
      as [H _]; [lia|].
    apply (H tint (Some (map VInt [1; 2; 3]))). reflexivity.
  - destruct (slice_negative_bound_panics W64 no_float_conversion
                tstring (int 0) (int (-1)) 0 (-1) eq_refl eq_refl)
      as [_ H]; [lia|].
    apply (H "abc"%string). reflexivity.
Defined.

Lemma sub_list_sub_list {A} (l : list A) a b c d :
  0 <= a -> 0 <= c <= d -> d <= b - a ->
  sub_list c d (sub_list a b l) = sub_list (a + c) (a + d) l.
Proof.
  intros Ha Hcd Hd. unfold sub_list.
  rewrite skipn_firstn_comm, firstn_firstn, skipn_skipn.
  replace (Z.to_nat c + Z.to_nat a)%nat with (Z.to_nat (a + c)) by lia.
  f_equal. lia.
Qed.

Lemma toInt_int ws fu z : toInt ws fu (int z) = Ok z.
Proof. reflexivity. Qed.

Lemma slice_in_range ws fu t e l a b :
  underlying t = SliceOf e ->
  0 <= a <= b -> b <= Z.of_nat (List.length l) ->
  slice ws fu (Some (t, VSlice (Some l))) (int a) (int b)
  = Ok (Some (t, VSlice (Some (sub_list a b l)))).
Proof.
  intros Hu Hab Hb.
  rewrite (slice_of_slice ws fu t e (Some l) (int a) (int b) a b Hu
             (toInt_int ws fu a) (toInt_int ws fu b)) by lia.
  cbv beta iota zeta. cbn [option_map]. unfold clamp_from, clamp_to.
  destruct (Z.gtb_spec b (Z.of_nat (List.length l))); [lia|].
  destruct (Z.gtb_spec a b); [lia|]. reflexivity.
Qed.

(** X15: slicing a slice of a slice is slicing once.  Within the bounds,
    [slice(slice(S, a, b), c, d) = slice(S, a + c, a + d)], with the type
    of [S]. *)
Theorem slice_of_slice_composes ws fu t e l a b c d :
  underlying t = SliceOf e ->
  0 <= a <= b -> b <= Z.of_nat (List.length l) ->
  0 <= c <= d -> d <= b - a ->
  (r <- slice ws fu (Some (t, VSlice (Some l))) (int a) (int b) ;;
   slice ws fu r (int c) (int d))
  = slice ws fu (Some (t, VSlice (Some l))) (int (a + c)) (int (a + d)).
Proof.
  intros Hu Hab Hb Hcd Hd.
  rewrite (slice_in_range ws fu t e l a b Hu Hab Hb). cbn [bind].
  rewrite (slice_in_range ws fu t e (sub_list a b l) c d Hu Hcd)
    by (rewrite sub_list_length; lia).
  rewrite (slice_in_range ws fu t e l (a + c) (a + d) Hu) by lia.
  rewrite sub_list_sub_list by lia. reflexivity.
Qed.

Lemma slice_of_slice_composes_witness :
  (r <- slice W64 no_float_conversion (ints [1; 2; 3; 4; 5]) (int 1) (int 4) ;;
   slice W64 no_float_conversion r (int 1) (int 2))
  = Ok (ints [3]).
Proof.
  unfold ints.
  rewrite (slice_of_slice_composes W64 no_float_conversion (SliceOf tint)
             tint (map VInt [1; 2; 3; 4; 5]) 1 4 1 2 eq_refl);
    cbn; try lia.
  reflexivity.
Defined.

(** X16: indexing a slice of a slice is indexing the slice.  Within the
    bounds, [fetch(slice(S, a, b), k, _) = fetch(S, a + k, _)] for
    [0 <= k < b - a], whatever the elements are. *)
Theorem fetch_of_slice ws fu Fetch t e l a b k nilsafe :
  underlying t = SliceOf e ->
  (forall d, assert_Fetcher (Some (t, d)) = None) ->
  0 <= a <= b -> b <= Z.of_nat (List.length l) ->
  0 <= k < b - a ->
  (r <- slice ws fu (Some (t, VSlice (Some l))) (int a) (int b) ;;
   fetch ws fu Fetch r (int k) nilsafe)
  = fetch ws fu Fetch (Some (t, VSlice (Some l))) (int (a + k)) nilsafe.
Proof.
  intros Hu Hf Hab Hb Hk.
  rewrite (slice_in_range ws fu t e l a b Hu Hab Hb). cbn [bind].
  destruct (nth_error l (Z.to_nat (a + k))) as [x|] eqn:Hx.
  2:{ apply nth_error_None in Hx. lia. }
  rewrite (fetch_slice_index ws fu Fetch t e l (int (a + k)) (a + k) x nilsafe
             Hu (Hf _) (toInt_int ws fu _)) by (lia || exact Hx).
  apply (fetch_slice_index ws fu Fetch t e (sub_list a b l) (int k) k x
           nilsafe Hu (Hf _) (toInt_int ws fu _)); [lia|].
  rewrite sub_list_nth by lia.
  replace (Z.to_nat a + Z.to_nat k)%nat with (Z.to_nat (a + k)) by lia.
  exact Hx.
Qed.

Lemma fetch_of_slice_witness :
  (r <- slice W64 no_float_conversion (ints [1; 2; 3; 4; 5]) (int 1) (int 4) ;;
   fetch W64 no_float_conversion Fetch_nothing r (int 2) false)
  = Ok (int 4).
Proof.
  unfold ints.
  rewrite (fetch_of_slice W64 no_float_conversion Fetch_nothing
             (SliceOf tint) tint (map VInt [1; 2; 3; 4; 5]) 1 4 2 false
             eq_refl (fun _ => eq_refl)); cbn; try lia.
  reflexivity.
Defined.

(** ** Missing keys and nil *)

Lemma isNil_zero V :
  proper_type V = true ->
  (r <- Value_Interface (Zero V) ;; isNil r) = Ok (nilable (Type_Kind V)).
Proof.
  unfold proper_type, Zero, Value_Interface. intros Hp.
  destruct V; cbn [underlying] in Hp; cbn [Type_Kind zero_data nilable];
    try reflexivity.
  - destruct k; try discriminate Hp; reflexivity.
  - destruct V; try discriminate Hp; cbn [Type_Kind zero_data nilable];
      try reflexivity.
    destruct k; try discriminate Hp; reflexivity.
Qed.

(** X17: whether a missing key reads as nil depends on the element type of
    the map.  For a key absent from a map passed directly,
    [isNil(fetch(M, k, _))] is true when the elements are pointers, slices,
    maps, funcs, channels or interfaces, and false when they are scalars,
    strings, arrays or structs, where the zero value returned cannot be
    told from a stored one. *)
Theorem isNil_of_missing_key ws fu Fetch t K V m key nilsafe :
  underlying t = MapOf K V ->
  proper_type V = true ->
  assert_Fetcher (Some (t, VMap m)) = None ->
  key_absent t m key ->
  (r <- fetch ws fu Fetch (Some (t, VMap m)) key nilsafe ;; isNil r)
  = Ok (nilable (Type_Kind V)).
Proof.
  intros Hu Hp Hf Habs.
  rewrite (fetch_map_missing_key ws fu Fetch t K V m key nilsafe Hu Hf Habs).
  apply isNil_zero. exact Hp.
Qed.

Lemma isNil_of_missing_key_witness :
  (r <- fetch W64 no_float_conversion Fetch_nothing
              (Some (map_string_int, map_a1)) (str "b") false ;;
   isNil r) = Ok false
  /\ (r <- fetch W64 no_float_conversion Fetch_nothing
                 (Some (MapOf tstring (PointerTo tint), VMap None))
                 (str "b") false ;;
      isNil r) = Ok true.
Proof.
  split.
  - apply (isNil_of_missing_key W64 no_float_conversion Fetch_nothing
             map_string_int tstring tint (Some [(VString "a", VInt 1)])
             (str "b") false eq_refl eq_refl eq_refl eq_refl).
  - apply (isNil_of_missing_key W64 no_float_conversion Fetch_nothing
             (MapOf tstring (PointerTo tint)) tstring (PointerTo tint) None
             (str "b") false eq_refl eq_refl eq_refl eq_refl).
Defined.

(** ** Ranges *)

Lemma wrap_signed_add_l w x y :
  0 < w -> wrap_signed w (wrap_signed w x + y) = wrap_signed w (x + y).
Proof.
  intros Hw. pose proof (half_pos w Hw). pose proof (pow2_split w Hw).
  unfold wrap_signed at 1 3. f_equal.
  rewrite <- Z.add_assoc, <- (Zplus_mod_idemp_l (wrap_signed w x)).
  rewrite (wrap_signed_congruent w Hw x), Zplus_mod_idemp_l.
  f_equal. lia.
Qed.

Lemma wrap_signed_above w z :
  0 < w -> max_int w < z <= 2 ^ w -> wrap_signed w z = z - 2 ^ w.
Proof.
  intros Hw Hz. unfold max_int in Hz.
  pose proof (half_pos w Hw). pose proof (pow2_split w Hw).
  unfold wrap_signed.
  replace (z + 2 ^ (w - 1)) with (z - 2 ^ (w - 1) + 1 * 2 ^ w) by lia.
  rewrite Z.mod_add by lia. rewrite Z.mod_small by lia. lia.
Qed.

Lemma wrap_signed_below w z :
  0 < w -> - 2 ^ w < z < min_int w -> wrap_signed w z = z + 2 ^ w.
Proof.
  intros Hw Hz. unfold min_int in Hz.
  pose proof (half_pos w Hw). pose proof (pow2_split w Hw).
  unfold wrap_signed.
  replace (z + 2 ^ (w - 1)) with (z + 2 ^ w + 2 ^ (w - 1) + (-1) * 2 ^ w)
    by lia.
  rewrite Z.mod_add by lia. rewrite Z.mod_small by lia. lia.
Qed.

Lemma makeRange_size ws min max :
  Operators.int_add ws (Operators.int_sub ws max min) 1
  = wrap_signed (word_bits ws) (max - min + 1).
Proof.
  unfold Operators.int_add, Operators.int_sub.
  apply wrap_signed_add_l, word_bits_pos.
Qed.

(** X18: [makeRange(min, max)] is the integers from [min] to [max], both
    included and in increasing order, when [min <= max] and the number of
    them fits an [int]: the slice has [max - min + 1] elements and the
    element at [i] is [min + i]. *)
Theorem makeRange_elements ws min max :
  in_range ws reflect.Int min -> in_range ws reflect.Int max ->
  min <= max -> max - min < max_int (word_bits ws) ->
  Operators.makeRange ws min max
  = map (fun i => min + Z.of_nat i) (seq 0 (Z.to_nat (max - min + 1)))
  /\ Z.of_nat (List.length (Operators.makeRange ws min max)) = max - min + 1
  /\ forall i, (i < Z.to_nat (max - min + 1))%nat ->
               nth_error (Operators.makeRange ws min max) i
               = Some (min + Z.of_nat i).
Proof.
  intros Hmin Hmax Hle Hspan.
  unfold in_range in Hmin, Hmax.
  cbn [signed_kind kind_bits] in Hmin, Hmax.
  pose proof (word_bits_pos ws) as HW.
  assert (E : Operators.makeRange ws min max
              = map (fun i => min + Z.of_nat i)
                    (seq 0 (Z.to_nat (max - min + 1)))).
  { unfold Operators.makeRange. rewrite makeRange_size.
    rewrite wrap_signed_small by (unfold min_int, max_int in *; lia).
    destruct (Z.leb_spec (max - min + 1) 0); [lia|].
    apply map_ext_in. intros i Hi. apply in_seq in Hi.
    unfold Operators.int_add. apply wrap_signed_small; [exact HW|].
    unfold min_int, max_int in *. lia. }
  rewrite E. split; [reflexivity|]. split.
  - rewrite length_map, length_seq. lia.
  - intros i Hi. rewrite nth_error_map, nth_error_seq.
    destruct (Nat.ltb_spec i (Z.to_nat (max - min + 1))); [|lia].
    reflexivity.
Qed.

Lemma makeRange_elements_witness :
  Operators.makeRange W64 1 5 = [1; 2; 3; 4; 5].
Proof.
  destruct (makeRange_elements W64 1 5) as [E _];
    try (unfold in_range, min_int, max_int; cbn; lia).
  rewrite E. reflexivity.
Defined.

(** X19: when [makeRange] is empty.  On two values of [int] the result is
    empty exactly when the size [max - min + 1], computed with wrap-around,
    is not positive: when [max < min] by no more than [2^(w-1) + 1], and
    when the size exceeds the largest [int].  When [max] is further below
    [min] the size wraps to a positive number and the result is not
    empty. *)
Theorem makeRange_empty_iff ws min max :
  in_range ws reflect.Int min -> in_range ws reflect.Int max ->
  Operators.makeRange ws min max = []
  <-> (min_int (word_bits ws) <= max - min + 1 <= 0
       \/ max_int (word_bits ws) < max - min + 1).
Proof.
  intros Hmin Hmax.
  unfold in_range in Hmin, Hmax.
  cbn [signed_kind kind_bits] in Hmin, Hmax.
  pose proof (word_bits_pos ws) as HW.
  pose proof (half_pos _ HW) as Hh. pose proof (pow2_split _ HW) as H2.
  unfold Operators.makeRange. rewrite makeRange_size.
  set (S := max - min + 1).
  assert (Hne : forall size,
             0 < size ->
             map (fun i => Operators.int_add ws min (Z.of_nat i))
                 (seq 0 (Z.to_nat size)) <> []).
  { intros size Hs E. apply (f_equal (@List.length Z)) in E.
    rewrite length_map, length_seq in E. cbn in E. lia. }
  unfold min_int, max_int in *.
  destruct (Z_lt_le_dec S (- 2 ^ (word_bits ws - 1))) as [Hlow | Hlow].
  - rewrite wrap_signed_below by (unfold min_int; subst S; lia).
    destruct (Z.leb_spec (S + 2 ^ word_bits ws) 0); [subst S; lia|].
    split; [intros E; exfalso; revert E; apply Hne; lia | lia].
  - destruct (Z_le_gt_dec S (2 ^ (word_bits ws - 1) - 1)) as [Hhigh | Hhigh].
    + rewrite wrap_signed_small by (unfold min_int, max_int; lia).
      destruct (Z.leb_spec S 0).
      * split; [lia | reflexivity].
      * split; [intros E; exfalso; revert E; apply Hne; lia | lia].
    + rewrite wrap_signed_above by (unfold max_int; subst S; lia).
      destruct (Z.leb_spec (S - 2 ^ word_bits ws) 0); [|subst S; lia].
      split; [lia | reflexivity].
Qed.

(** [makeRange(5, 1)] is empty; so is the range from -1 to the largest int,
    whose size does not fit; the range from the largest to the least int
    wraps around to two elements. *)
Lemma makeRange_empty_iff_witness :
  Operators.makeRange W64 5 1 = []
  /\ Operators.makeRange W64 (-1) (2 ^ 63 - 1) = []
  /\ Operators.makeRange W64 (2 ^ 63 - 1) (- 2 ^ 63)
     = [2 ^ 63 - 1; - 2 ^ 63].
Proof.
  split; [|split].
  - apply (makeRange_empty_iff W64 5 1);
      unfold in_range, min_int, max_int; cbn; lia.
  - apply (makeRange_empty_iff W64 (-1) (2 ^ 63 - 1));
      unfold in_range, min_int, max_int; cbn; lia.
  - reflexivity.
Defined.

(** ** Length *)

(** X20: what [length] is defined on.  On a well-formed value [length]
    returns the number of elements of an array or slice, of bytes of a
    string and of entries of a map, 0 for the nil slice and the nil map; on
    everything else it panics with "invalid argument for len" and the type:
    on nil, on scalars and structs, and on every pointer, a pointer to a
    slice included, which [length] does not follow. *)
Theorem length_spec a :
  well_formed a = true -> proper a = true ->
  Operators.length a
  = match a with
    | Some (t, VArray l) => Operators.Returns (Z.of_nat (List.length l))
    | Some (t, VSlice (Some l)) => Operators.Returns (Z.of_nat (List.length l))
    | Some (t, VString s) => Operators.Returns (Z.of_nat (String.length s))
    | Some (t, VMap (Some m)) => Operators.Returns (Z.of_nat (List.length m))
    | Some (t, VSlice None) | Some (t, VMap None) => Operators.Returns 0
    | _ => Operators.Panics (Operators.InvalidArgumentForLen (TypeOf a))
    end.
Proof.
  destruct a as [[t d]|]; [|reflexivity].
  cbn [well_formed proper]. unfold repr_ok, proper_type, Operators.length.
  cbn [ValueOf Value_Kind]. intros Hwf Hp.
  destruct (Type_Kind t) eqn:K, d; try discriminate Hwf; try reflexivity;
    unfold Value_Len; rewrite K.
  - destruct (underlying t); try discriminate Hwf.
    apply Nat.eqb_eq in Hwf. rewrite Hwf. reflexivity.
  - destruct entries; reflexivity.
  - pose proof (underlying_kind t _ eq_refl) as Ku. rewrite K in Ku.
    destruct elems, (underlying t) as [k| | | | | | | | |];
      try discriminate Ku; try reflexivity; try discriminate Hp;
      cbn [Type_Kind] in Ku; subst k; discriminate Hp.
  - reflexivity.
Qed.

Lemma length_spec_witness :
  Operators.length (Some (SliceOf tint, VSlice None)) = Operators.Returns 0
  /\ Operators.length (Some (PointerTo (SliceOf tint),
                             VPtr (Some (4096, VSlice (Some [VInt 1])))))
     = Operators.Panics
         (Operators.InvalidArgumentForLen (Some (PointerTo (SliceOf tint))))
  /\ Operators.length (str "abc") = Operators.Returns 3.
Proof.
  split; [|split].
  - apply (length_spec (Some (SliceOf tint, VSlice None)) eq_refl eq_refl).
  - apply (length_spec (Some (PointerTo (SliceOf tint),
                              VPtr (Some (4096, VSlice (Some [VInt 1])))))
             eq_refl eq_refl).
  - apply (length_spec (str "abc") eq_refl eq_refl).
Defined.

(** X21: [length] is the exact bound of [fetch] on a slice.  For a key that
    [toInt] coerces to [n], [fetch] returns a value exactly when
    [0 <= n < length(S)] (elements that are neither pointers nor
    interfaces); outside of it [fetch] panics. *)
Theorem fetch_returns_iff_below_length ws fu Fetch t e l key n nilsafe :
  underlying t = SliceOf e ->
  assert_Fetcher (Some (t, VSlice (Some l))) = None ->
  Type_Kind e <> reflect.Interface -> Type_Kind e <> reflect.Pointer ->
  toInt ws fu key = Ok n ->
  exists len,
    Operators.length (Some (t, VSlice (Some l))) = Operators.Returns len
    /\ ((exists v, fetch ws fu Fetch (Some (t, VSlice (Some l))) key nilsafe
                   = Ok v)
        <-> 0 <= n < len).
Proof.
  intros Hu Hf Hi Hp Hkey.
  pose proof (underlying_kind t _ Hu) as K. cbn in K.
  exists (Z.of_nat (List.length l)). split.
  - unfold Operators.length. cbn [ValueOf Value_Kind]. rewrite K.
    unfold Value_Len. rewrite K, Hu. reflexivity.
  - split.
    + intros [v Hv].
      destruct (Z_lt_le_dec n 0) as [Hneg | Hnn];
        [|destruct (Z_lt_le_dec n (Z.of_nat (List.length l))) as [Hlt | Hge];
          [lia|]].
      all: exfalso; revert Hv; unfold fetch; rewrite Hf;
        cbn [ValueOf Value_Kind]; rewrite K;
        cbn [reflect.Kind_eqb bind Value_Kind]; rewrite K, Hkey;
        cbn [bind];
        rewrite (Index_out_of_range t (VSlice (Some l))
                   (Z.of_nat (List.length l)) n);
        [discriminate | rewrite K; reflexivity
         | unfold Value_Len; rewrite K, Hu; reflexivity | lia].
    + intros Hn.
      destruct (nth_error l (Z.to_nat n)) as [x|] eqn:Hx.
      2:{ apply nth_error_None in Hx. lia. }
      exists (Some (e, x)).
      rewrite (fetch_slice_index ws fu Fetch t e l key n x nilsafe);
        try assumption; [|lia].
      apply normalize_plain; assumption.
Qed.

Lemma fetch_returns_iff_below_length_witness :
  exists len,
    Operators.length (ints [1; 2; 3]) = Operators.Returns len
    /\ ((exists v, fetch W64 no_float_conversion Fetch_nothing
                         (ints [1; 2; 3]) (int 3) false = Ok v)
        <-> 0 <= 3 < len).
Proof.
  apply (fetch_returns_iff_below_length W64 no_float_conversion Fetch_nothing
           (SliceOf tint) tint (map VInt [1; 2; 3]) (int 3) 3 false
           eq_refl eq_refl); try discriminate. reflexivity.
Defined.

(** X22: the length of a slice of a slice is the distance of the clamped
    bounds.  For bounds that are not negative,
    [length(slice(S, a, b)) = min(b, len) - min(a, min(b, len))]: never more
    than [len], and never a panic. *)
Theorem length_of_slice ws fu t e s from to a b :
  underlying t = SliceOf e ->
  toInt ws fu from = Ok a -> toInt ws fu to = Ok b ->
  0 <= a -> 0 <= b ->
  let len := Z.of_nat (List.length (match s with Some l => l | None => [] end)) in
  Operators.and_then
    (Operators.lift (slice ws fu (Some (t, VSlice s)) from to))
    Operators.length
  = Operators.Returns (Z.min b len - Z.min a (Z.min b len)).
Proof.
  intros Hu Ha Hb Ha0 Hb0 len.
  pose proof (underlying_kind t _ Hu) as K. cbn in K.
  rewrite (slice_of_slice ws fu t e s from to a b Hu Ha Hb Ha0 Hb0).
  cbv beta iota zeta. fold len.
  cbn [Operators.lift Operators.and_then].
  unfold Operators.length. cbn [ValueOf Value_Kind]. rewrite K.
  unfold Value_Len. rewrite K, Hu.
  destruct (clamp_bounds len a b) as [Hi Hj]; try lia.
  assert (Ej : clamp_to len b = Z.min b len)
    by (unfold clamp_to; destruct (Z.gtb_spec b len); lia).
  assert (Ei : clamp_from (clamp_to len b) a = Z.min a (Z.min b len))
    by (rewrite Ej; unfold clamp_from;
        destruct (Z.gtb_spec a (Z.min b len)); lia).
  destruct s as [l|]; cbn [option_map Operators.lift].
  - f_equal. rewrite sub_list_length; [rewrite Ei, Ej; reflexivity | lia |].
    subst len. cbn in Hj. exact Hj.
  - f_equal. subst len. cbn [List.length Z.of_nat] in *. lia.
Qed.

Lemma length_of_slice_witness :
  Operators.and_then
    (Operators.lift
       (slice W64 no_float_conversion (ints [1; 2; 3]) (int 1) (int 10)))
    Operators.length
  = Operators.Returns 2.
Proof.
  apply (length_of_slice W64 no_float_conversion (SliceOf tint) tint
           (Some (map VInt [1; 2; 3])) (int 1) (int 10) 1 10
           eq_refl eq_refl eq_refl); lia.
Defined.

(** ** Membership *)

(** [in], as the source has it. *)
Lemma in_eq equal (needle array : iface) :
  Operators.in_ equal needle array =
  match array with
  | None => Operators.Returns false
  | Some _ =>
      let v := ValueOf array in
      match Value_Kind v with
      | reflect.Array | reflect.Slice => Operators.in_sequence equal needle v
      | reflect.Map => Operators.in_map needle (TypeOf array) v
      | reflect.Struct => Operators.in_struct needle (TypeOf array) v
      | reflect.Ptr =>
          Operators.and_then (Operators.lift (Value_Elem v)) (fun value =>
          Operators.and_then
            (Operators.lift (if Value_IsValid value
                             then Value_CanInterface value else Ok false))
            (fun ok =>
               if ok
               then Operators.and_then
                      (Operators.lift (Value_Interface value))
                      (fun i => Operators.in_ equal needle i)
               else Operators.Returns false))
      | _ => Operators.Panics (Operators.OperatorInNotDefined (TypeOf array))
      end
  end.
Proof.
  destruct array as [[t d]|]; [|reflexivity].
  cbn [Operators.in_ ValueOf Value_Kind TypeOf option_map fst].
  destruct d; cbn [Operators.in_at]; destruct (Type_Kind t) eqn:K;
    try reflexivity; unfold Value_Elem; rewrite K; try reflexivity.
  destruct p as [[a d']|]; [|reflexivity].
  destruct (underlying t); try reflexivity.
  cbn [Operators.lift Operators.and_then Value_IsValid Value_CanInterface
       flagRO negb Value_Interface].
  destruct (Type_Kind r), d'; try reflexivity;
    match goal with |- context [VIface ?i] => destruct i as [[? ?]|] end;
    reflexivity.
Qed.

Lemma Interface_plain e x addr :
  Type_Kind e <> reflect.Interface ->
  Value_Interface (Val e x false addr) = Ok (Some (e, x)).
Proof.
  intros He. unfold Value_Interface.
  destruct (Type_Kind e); try reflexivity. contradiction.
Qed.

Lemma in_scan_suffix equal needle t e l1 l2 :
  underlying t = SliceOf e ->
  Type_Kind e <> reflect.Interface ->
  Operators.in_scan equal needle (Val t (VSlice (Some (l1 ++ l2))) false false)
                    (seq (List.length l1) (List.length l2))
  = scan equal needle e l2.
Proof.
  intros Hu He.
  pose proof (underlying_kind t _ Hu) as K. cbn in K.
  revert l1. induction l2 as [|x l2 IH]; intros l1; [reflexivity|].
  cbn [List.length seq Operators.in_scan scan].
  unfold Value_Index. rewrite K, Hu.
  replace ((Z.of_nat (List.length l1) <? 0)
           || (Z.of_nat (List.length (l1 ++ x :: l2))
               <=? Z.of_nat (List.length l1))) with false
    by (symmetry; rewrite orb_false_iff, Z.ltb_ge, Z.leb_gt, length_app;
        cbn [List.length]; lia).
  rewrite Nat2Z.id, nth_error_app2 by lia. rewrite Nat.sub_diag.
  cbn [nth_error bind Value_IsValid Value_CanInterface flagRO negb].
  rewrite (Interface_plain e x true He). cbn [bind].
  destruct (equal (Some (e, x)) needle) as [r|p]; cbn [bind]; [|reflexivity].
  destruct (Operators.assert_bool r) as [[|]|p]; cbn [bind];
    try reflexivity.
  specialize (IH (l1 ++ [x])).
  rewrite <- app_assoc in IH. cbn [app] in IH.
  rewrite length_app in IH. cbn [List.length] in IH.
  replace (List.length l1 + 1)%nat with (S (List.length l1)) in IH by lia.
  exact IH.
Qed.

Lemma in_slice_scan equal needle t e s :
  underlying t = SliceOf e ->
  Type_Kind e <> reflect.Interface ->
  Operators.in_ equal needle (Some (t, VSlice s))
  = Operators.lift
      (scan equal needle e (match s with Some l => l | None => [] end)).
Proof.
  intros Hu He.
  pose proof (underlying_kind t _ Hu) as K. cbn in K.
  rewrite in_eq. cbn [ValueOf Value_Kind]. rewrite K.
  unfold Operators.in_sequence, Value_Len. rewrite K, Hu.
  destruct s as [l|]; cbn [Operators.lift Operators.and_then];
    [|reflexivity].
  rewrite Nat2Z.id.
  rewrite <- (in_scan_suffix equal needle t e [] l Hu He). reflexivity.
Qed.

(** X23: [in] on a slice is a scan from the first element on that stops at
    the first element [equal] to the needle.  It returns true as soon as
    [equal] answers true, without asking about the elements after it; it
    returns false when [equal] answers false on every element, on the empty
    and on the nil slice without asking at all; and a panic of [equal] on
    the first element not yet decided is the panic of [in]. *)
Theorem in_slice_scans equal needle t e s l1 x l2 :
  underlying t = SliceOf e ->
  Type_Kind e <> reflect.Interface ->
  let l := match s with Some l => l | None => [] end in
  ((forall y, In y l -> equal (Some (e, y)) needle = Ok (bool_ false)) ->
   Operators.in_ equal needle (Some (t, VSlice s)) = Operators.Returns false)
  /\ (l = l1 ++ x :: l2 ->
      (forall y, In y l1 -> equal (Some (e, y)) needle = Ok (bool_ false)) ->
      (equal (Some (e, x)) needle = Ok (bool_ true) ->
       Operators.in_ equal needle (Some (t, VSlice s))
       = Operators.Returns true)
      /\ (forall p, equal (Some (e, x)) needle = Panic p ->
            Operators.in_ equal needle (Some (t, VSlice s))
            = Operators.Panics (Operators.Raised p))).
Proof.
  intros Hu He l. subst l.
  rewrite (in_slice_scan equal needle t e s Hu He).
  set (l := match s with Some l => l | None => [] end).
  split.
  - intros Hall. induction l as [|y l IH]; [reflexivity|].
    cbn [scan]. rewrite (Hall y (or_introl eq_refl)). cbn [bind].
    apply IH. intros z Hz. apply Hall. right. exact Hz.
  - intros El Hall. rewrite El. clear El.
    induction l1 as [|y l1 IH].
    + cbn [app scan]. split.
      * intros ->. reflexivity.
      * intros p ->. reflexivity.
    + cbn [app scan]. rewrite (Hall y (or_introl eq_refl)). cbn [bind].
      apply IH. intros z Hz. apply Hall. right. exact Hz.
Qed.

Lemma in_slice_scans_witness :
  Operators.in_ equal_ints (int 3) (ints [1; 2; 3]) = Operators.Returns true
  /\ Operators.in_ equal_ints (int 9) (ints [1; 2; 3])
     = Operators.Returns false
  /\ Operators.in_ equal_ints (int 9) (Some (SliceOf tint, VSlice None))
     = Operators.Returns false.
Proof.
  destruct (in_slice_scans equal_ints (int 3) (SliceOf tint) tint
              (Some (map VInt [1; 2; 3])) [VInt 1; VInt 2] (VInt 3) []
              eq_refl) as [_ Hfound]; [discriminate|].
  destruct (in_slice_scans equal_ints (int 9) (SliceOf tint) tint
              (Some (map VInt [1; 2; 3])) [] (VInt 1) [] eq_refl)
    as [Hnone _]; [discriminate|].
  destruct (in_slice_scans equal_ints (int 9) (SliceOf tint) tint
              None [] (VInt 1) [] eq_refl) as [Hnil _]; [discriminate|].
  split; [|split].
  - apply Hfound; [reflexivity | | reflexivity].
    intros y [<- | [<- | []]]; reflexivity.
  - apply Hnone. intros y [<- | [<- | [<- | []]]]; reflexivity.
  - apply Hnil. intros y [].
Defined.

Lemma assign_key_map_key K nt nd k :
  Type_Kind nt <> reflect.Interface ->
  assign_key K (Val nt nd false false) = Ok k -> k = map_key K nt nd.
Proof.
  unfold assign_key, map_key. intros Kn.
  destruct (directlyAssignable K nt); [intros [= <-]; reflexivity|].
  destruct (implements K nt); [|discriminate].
  destruct (Type_Kind nt); try contradiction;
    destruct (comparable nt); try discriminate;
    intros [= <-]; reflexivity.
Qed.

(** X24: [in] and [fetch] read a map the same way, and [in] tells what
    [fetch] cannot.  On a map passed directly, without the custom accessor,
    a needle that is not nil is looked up by the key it is assigned to: its
    own value, or the needle in an interface when the keys are of an
    interface type.  When [in] returns false, the map has no entry at that
    key and [fetch] returns the zero value of the element type; when [in]
    returns true, the map has an entry at that key and [fetch] returns this
    entry, normalized; when [in] panics inside reflect or the runtime (a
    needle of another type than the keys, or one that cannot be hashed),
    [fetch] panics the same.  On the nil needle [in] panics with
    "cannot use ... as index". *)
Theorem in_map_agrees_with_fetch ws fu Fetch equal t K V m nilsafe :
  underlying t = MapOf K V ->
  assert_Fetcher (Some (t, VMap m)) = None ->
  let M := Some (t, VMap m) in
  let entries := match m with Some l => l | None => [] end in
  Operators.in_ equal None M
  = Operators.Panics (Operators.CannotUseAsIndex None (Some t))
  /\ (forall nt nd,
        Type_Kind nt <> reflect.Interface ->
        let needle := Some (nt, nd) in
        (Operators.in_ equal needle M = Operators.Returns false ->
         map_lookup (map_key K nt nd) entries = None
         /\ fetch ws fu Fetch M needle nilsafe = Value_Interface (Zero V))
        /\ (Operators.in_ equal needle M = Operators.Returns true ->
            exists y,
              map_lookup (map_key K nt nd) entries = Some y
              /\ fetch ws fu Fetch M needle nilsafe
                 = normalize (Val V y false false))
        /\ (forall p,
              Operators.in_ equal needle M
              = Operators.Panics (Operators.Raised p) ->
              fetch ws fu Fetch M needle nilsafe = Panic p)).
Proof.
  intros Hu Hf M entries. subst M entries.
  pose proof (underlying_kind t _ Hu) as Kt. cbn in Kt.
  split.
  - rewrite in_eq. cbn [ValueOf Value_Kind TypeOf option_map fst].
    rewrite Kt. reflexivity.
  - intros nt nd Kn needle. subst needle.
    rewrite in_eq. cbn [ValueOf Value_Kind TypeOf option_map fst].
    rewrite Kt. unfold Operators.in_map.
    cbn [ValueOf Value_IsValid negb].
    assert (Efetch :
              fetch ws fu Fetch (Some (t, VMap m)) (Some (nt, nd)) nilsafe
              = (value <- Value_MapIndex (Val t (VMap m) false false)
                                         (Val nt nd false false) ;;
                 if Value_IsValid value then normalize value
                 else Value_Interface (Zero V))).
    { unfold fetch. rewrite Hf. cbn [ValueOf Value_Kind]. rewrite Kt.
      cbn [reflect.Kind_eqb bind Value_Kind]. rewrite Kt.
      cbn [TypeOf option_map fst Type_Elem]. rewrite Hu. reflexivity. }
    rewrite Efetch.
    unfold Value_MapIndex. rewrite Kt, Hu.
    destruct (assign_key K (Val nt nd false false)) as [k|p] eqn:Ek;
      cbn [bind Operators.lift Operators.and_then].
    + rewrite <- (assign_key_map_key K nt nd k Kn Ek).
      destruct (map_lookup k match m with Some l => l | None => [] end)
        as [y|] eqn:El;
        cbn [bind Operators.lift Operators.and_then Value_IsValid flagRO orb].
      * split; [discriminate|]. split; [|discriminate].
        intros _. exists y. split; reflexivity.
      * split; [split; reflexivity|]. split; discriminate.
    + split; [discriminate|]. split; [discriminate|].
      intros q [= <-]. reflexivity.
Qed.

(** [map[string]int{"a": 1}]: ["b"] is no key and [fetch] gives 0, ["a"] is
    a key and [fetch] gives its entry, and the needle 1 panics in both. *)
Lemma in_map_agrees_with_fetch_witness :
  (Operators.in_ equal_ints (str "b") (Some (map_string_int, map_a1))
   = Operators.Returns false
   /\ fetch W64 no_float_conversion Fetch_nothing
            (Some (map_string_int, map_a1)) (str "b") true
      = Ok (int 0))
  /\ (Operators.in_ equal_ints (str "a") (Some (map_string_int, map_a1))
      = Operators.Returns true
      /\ fetch W64 no_float_conversion Fetch_nothing
               (Some (map_string_int, map_a1)) (str "a") true
         = Ok (int 1))
  /\ fetch W64 no_float_conversion Fetch_nothing
           (Some (map_string_int, map_a1)) (int 1) true
     = Panic (ReflectPanic
                "reflect.Value.MapIndex: value of type int is not assignable to type string").
Proof.
  destruct (in_map_agrees_with_fetch W64 no_float_conversion Fetch_nothing
              equal_ints map_string_int tstring tint
              (Some [(VString "a", VInt 1)]) true
              eq_refl eq_refl) as [_ H].
  split; [|split].
  - destruct (H tstring (VString "b")) as (Hfalse & _ & _); [discriminate|].
    split; [reflexivity|].
    apply Hfalse. reflexivity.
  - destruct (H tstring (VString "a")) as (_ & Htrue & _); [discriminate|].
    split; [reflexivity|].
    destruct (Htrue eq_refl) as (y & Hy & Hfetch).
    cbn in Hy. injection Hy as <-. exact Hfetch.
  - destruct (H tint (VInt 1)) as (_ & _ & Hp); [discriminate|].
    apply Hp. reflexivity.
Defined.

(** X25: [in] on a struct is a test for the field name.  For a needle of
    string kind it returns whether the struct has a field of that name,
    exported or not, and never panics; when it returns false, [fetch] on
    the same name panics; a needle that is nil or not a string panics with
    "cannot use ... as field name". *)
Theorem in_struct_field ws fu Fetch equal t fs ds needle nilsafe :
  underlying t = StructOf fs ->
  assert_Fetcher (Some (t, VStruct ds)) = None ->
  let S := Some (t, VStruct ds) in
  (forall nt s,
     needle = Some (nt, VString s) -> Type_Kind nt = reflect.String ->
     Operators.in_ equal needle S
     = Operators.Returns
         (match find_field s fs ds with Some _ => true | None => false end)
     /\ (Operators.in_ equal needle S = Operators.Returns false ->
         fetch ws fu Fetch S needle nilsafe
         = Panic (ValueError "reflect.Value.Interface" reflect.Invalid)))
  /\ (reflect.Kind_eqb (Value_Kind (ValueOf needle)) reflect.String = false ->
      Operators.in_ equal needle S
      = Operators.Panics
          (Operators.CannotUseAsFieldName (TypeOf needle) (Some t))).
Proof.
  intros Hu Hf S. subst S.
  pose proof (underlying_kind t _ Hu) as K. cbn in K.
  rewrite in_eq. cbn [ValueOf Value_Kind TypeOf option_map fst]. rewrite K.
  unfold Operators.in_struct. split.
  - intros nt s -> Kn.
    cbn [ValueOf Value_IsValid Value_Kind negb orb]. rewrite Kn.
    cbn [reflect.Kind_eqb negb]. unfold Value_String. rewrite Kn.
    unfold Value_FieldByName. rewrite K, Hu.
    rewrite (fetch_struct ws fu Fetch t fs ds _ nilsafe Hu Hf).
    cbn [ValueOf]. unfold Value_String. rewrite Kn.
    destruct (find_field s fs ds) as [[[x ft] fd]|];
      cbn [Operators.lift Operators.and_then Value_IsValid].
    + split; [reflexivity | discriminate].
    + split; reflexivity.
  - intros Hk.
    destruct needle as [[nt nd]|]; [|reflexivity].
    cbn [ValueOf Value_IsValid negb orb] in *. rewrite Hk. reflexivity.
Qed.

Lemma in_struct_field_witness :
  Operators.in_ equal_ints (str "secret") record = Operators.Returns true
  /\ Operators.in_ equal_ints (str "Missing") record = Operators.Returns false
  /\ Operators.in_ equal_ints (int 0) record
     = Operators.Panics
         (Operators.CannotUseAsFieldName (Some tint) (Some trecord)).
Proof.
  destruct (in_struct_field W64 no_float_conversion Fetch_nothing equal_ints
              trecord _ [VString "go"; VInt 42; VPtr (Some (8192, VInt 5))]
              (str "secret") false eq_refl eq_refl) as [H1 _].
  destruct (in_struct_field W64 no_float_conversion Fetch_nothing equal_ints
              trecord _ [VString "go"; VInt 42; VPtr (Some (8192, VInt 5))]
              (str "Missing") false eq_refl eq_refl) as [H2 _].
  destruct (in_struct_field W64 no_float_conversion Fetch_nothing equal_ints
              trecord _ [VString "go"; VInt 42; VPtr (Some (8192, VInt 5))]
              (int 0) false eq_refl eq_refl) as [_ H3].
  split; [|split].
  - apply (H1 tstring "secret"%string eq_refl eq_refl).
  - apply (H2 tstring "Missing"%string eq_refl eq_refl).
  - apply H3. reflexivity.
Defined.

(** ** Pointers *)

Lemma point_kind n t d :
  Type_Kind t <> reflect.Interface ->
  Type_Kind (fst (point n (t, d))) <> reflect.Interface.
Proof.
  intros Ht. destruct n as [|n]; [exact Ht|].
  cbn [point]. destruct (point n (t, d)) as [t' d']. discriminate.
Qed.

Lemma slice_pointer ws fu t d a from to :
  Type_Kind t <> reflect.Interface ->
  slice ws fu (Some (PointerTo t, VPtr (Some (a, d)))) from to
  = slice ws fu (Some (t, d)) from to.
Proof.
  intros Ht. cbn [slice slice_at Type_Kind underlying].
  destruct (Type_Kind t), d; try reflexivity; contradiction.
Qed.

Lemma in_pointer equal needle t d a :
  Type_Kind t <> reflect.Interface ->
  Operators.in_ equal needle (Some (PointerTo t, VPtr (Some (a, d))))
  = Operators.in_ equal needle (Some (t, d)).
Proof.
  intros Ht. cbn [Operators.in_ Operators.in_at Type_Kind underlying].
  destruct (Type_Kind t), d; try reflexivity; contradiction.
Qed.

(** X26: how far each operator looks through pointers.  [slice] and [in]
    follow pointers to any depth: on [n] pointers on top of a value they
    give what the value gives.  [length] follows none and panics on every
    pointer; [fetch] follows one, and from two pointers on it has no access:
    nil under [nilsafe], "cannot fetch" without. *)
Theorem pointer_depth ws fu Fetch equal needle t d from to key nilsafe n :
  Type_Kind t <> reflect.Interface ->
  slice ws fu (Some (point n (t, d))) from to
  = slice ws fu (Some (t, d)) from to
  /\ Operators.in_ equal needle (Some (point n (t, d)))
     = Operators.in_ equal needle (Some (t, d))
  /\ Operators.length (Some (point (S n) (t, d)))
     = Operators.Panics
         (Operators.InvalidArgumentForLen (Some (fst (point (S n) (t, d)))))
  /\ fetch ws fu Fetch (Some (point (S (S n)) (t, d))) key nilsafe
     = if nilsafe then Ok None
       else Panic (CannotFetch key (Some (fst (point (S (S n)) (t, d))))).
Proof.
  intros Ht. split; [|split; [|split]].
  - induction n as [|n IH]; [reflexivity|].
    cbn [point]. pose proof (point_kind n t d Ht) as Hk.
    destruct (point n (t, d)) as [t' d']. cbn [fst] in Hk.
    rewrite slice_pointer by exact Hk. exact IH.
  - induction n as [|n IH]; [reflexivity|].
    cbn [point]. pose proof (point_kind n t d Ht) as Hk.
    destruct (point n (t, d)) as [t' d']. cbn [fst] in Hk.
    rewrite in_pointer by exact Hk. exact IH.
  - cbn [point]. destruct (point n (t, d)) as [t' d']. reflexivity.
  - cbn [point]. destruct (point n (t, d)) as [t' d'].
    destruct nilsafe; reflexivity.
Qed.

Lemma pointer_depth_witness :
  slice W64 no_float_conversion
        (Some (point 2 (SliceOf tint, VSlice (Some [VInt 1; VInt 2]))))
        (int 0) (int 1)
  = Ok (ints [1])
  /\ fetch W64 no_float_conversion Fetch_nothing
           (Some (point 2 (SliceOf tint, VSlice (Some [VInt 1; VInt 2]))))
           (int 0) true
     = Ok None.
Proof.
  destruct (pointer_depth W64 no_float_conversion Fetch_nothing equal_ints
              None (SliceOf tint) (VSlice (Some [VInt 1; VInt 2]))
              (int 0) (int 1) (int 0) true 0) as (_ & _ & _ & Hfetch);
    [discriminate|].
  destruct (pointer_depth W64 no_float_conversion Fetch_nothing equal_ints
              None (SliceOf tint) (VSlice (Some [VInt 1; VInt 2]))
              (int 0) (int 1) (int 0) true 2) as (Hslice & _);
    [discriminate|].
  split.
  - rewrite Hslice. reflexivity.
  - exact Hfetch.
Defined.
